(** * Dossier: the social-account search of the person page

    A shallow embedding of the script of
    [src/dossier-frontend/dossier/src/routes/people/[id]/+page.svelte]:
    the key normaliser [slugify], the reconciliation of a finished search
    against the person's known accounts ([processSearchResults]) and the
    polling loop that tracks a queued search ([pollSearchResults]).

    Strings.  A JavaScript string is a sequence of UTF-16 code units.  The
    model uses Rocq's [string], a sequence of 8-bit characters, read as the
    code units U+0000..U+00FF (Latin-1).  On that range [trim], [toLowerCase]
    and the two regular expressions of [slugify] are modelled exactly as
    ECMAScript defines them, and the range is closed under all four.  Code
    units above U+00FF are outside the model. *)

From Stdlib Require Import Bool Arith NArith ZArith List Ascii String Lia.
From Stdlib Require Import DecimalString.
Import ListNotations.
Open Scope string_scope.
Set Warnings "-register-all".

(* ================================================================== *)
(** ** JavaScript strings *)

Module JsString.

Definition code (c : ascii) : N := N_of_ascii c.

(** [WhiteSpace] and [LineTerminator] of ECMAScript below U+0100: TAB, LF,
    VT, FF, CR, SP and NBSP.  It is the set that [\s] matches and that
    [String.prototype.trim] removes. *)
Definition isWhiteSpace (c : ascii) : bool :=
  let n := code c in
  (((9 <=? n) && (n <=? 13)) || (n =? 32) || (n =? 160))%N.

(** The character class [[a-z0-9_-]]. *)
Definition isSlugChar (c : ascii) : bool :=
  let n := code c in
  (((97 <=? n) && (n <=? 122)) || ((48 <=? n) && (n <=? 57))
   || (n =? 95) || (n =? 45))%N.

(** Lower-case mapping of one code unit: A-Z, and the Latin-1 capitals
    U+00C0..U+00DE without the multiplication sign U+00D7. *)
Definition toLowerChar (c : ascii) : ascii :=
  let n := code c in
  if (((65 <=? n) && (n <=? 90))
      || ((192 <=? n) && (n <=? 222) && negb (n =? 215)))%N
  then ascii_of_N (n + 32) else c.

(** [s.toLowerCase()] *)
Fixpoint toLowerCase (s : string) : string :=
  match s with
  | EmptyString => EmptyString
  | String c r => String (toLowerChar c) (toLowerCase r)
  end.

Fixpoint trimStart (s : string) : string :=
  match s with
  | EmptyString => EmptyString
  | String c r => if isWhiteSpace c then trimStart r else s
  end.

Fixpoint trimEnd (s : string) : string :=
  match s with
  | EmptyString => EmptyString
  | String c r =>
      match trimEnd r with
      | EmptyString => if isWhiteSpace c then EmptyString else String c EmptyString
      | r' => String c r'
      end
  end.

(** [s.trim()] *)
Definition trim (s : string) : string := trimEnd (trimStart s).

(** [s.replace(/[cls]+/g, rep)]: a left-to-right scan; [inMatch] tells that
    the previous code unit belongs to the match being consumed, whose
    replacement was already written. *)
Fixpoint replaceRuns (cls : ascii -> bool) (rep : string) (inMatch : bool)
         (s : string) : string :=
  match s with
  | EmptyString => EmptyString
  | String c r =>
      if cls c then
        if inMatch then replaceRuns cls rep true r
        else rep ++ replaceRuns cls rep true r
      else String c (replaceRuns cls rep false r)
  end.

(** [s.replace(/[cls]/g, rep)]: every single match is replaced. *)
Fixpoint replaceEach (cls : ascii -> bool) (rep : string) (s : string) : string :=
  match s with
  | EmptyString => EmptyString
  | String c r =>
      if cls c then rep ++ replaceEach cls rep r
      else String c (replaceEach cls rep r)
  end.

(** Every code unit of [s] satisfies [p]. *)
Fixpoint allChars (p : ascii -> bool) (s : string) : bool :=
  match s with
  | EmptyString => true
  | String c r => p c && allChars p r
  end.

End JsString.

Import JsString.

(** The arrow function [slugify], declared six times in the repository with
    the same body:
<<
    s.trim().toLowerCase().replace(/\s+/g, '_').replace(/[^a-z0-9_-]/g, '')
>> *)
Definition slugify (s : string) : string :=
  replaceEach (fun c => negb (isSlugChar c)) ""
    (replaceRuns isWhiteSpace "_" false (toLowerCase (trim s))).

(* ================================================================== *)
(** ** The normaliser as the specification words it *)

Module NormalizeSpec.

Fixpoint dropWhile (p : ascii -> bool) (l : list ascii) : list ascii :=
  match l with
  | [] => []
  | c :: r => if p c then dropWhile p r else l
  end.

(** trim surrounding whitespace: at the front, and at the back *)
Definition trimSurrounding (l : list ascii) : list ascii :=
  rev (dropWhile isWhiteSpace (rev (dropWhile isWhiteSpace l))).

(** replace runs of whitespace with a single underscore: a whitespace
    character followed by another one disappears, the last one of a run
    becomes the underscore *)
Fixpoint collapseRuns (l : list ascii) : list ascii :=
  match l with
  | [] => []
  | c :: r =>
      if isWhiteSpace c then
        match r with
        | c' :: _ => if isWhiteSpace c' then collapseRuns r
                     else "_"%char :: collapseRuns r
        | [] => ["_"%char]
        end
      else c :: collapseRuns r
  end.

(** the characters of a string, in order *)
Definition chars (s : string) : list ascii := list_ascii_of_string s.

Definition normalize (label : string) : string :=
  string_of_list_ascii
    (filter isSlugChar
       (collapseRuns
          (map toLowerChar
             (trimSurrounding (chars label))))).

End NormalizeSpec.

(* ================================================================== *)
(** ** JavaScript values *)

(** The values that reach the script: what [JSON.parse] produces, and
    [undefined] for an absent property.  Of a number the script observes
    only whether it is zero. *)
Inductive JSValue : Type :=
| JUndefined
| JNull
| JBool (b : bool)
| JNum (n : Z)
| JStr (s : string)
| JArr (items : list JSValue)
| JObj (props : list (string * JSValue)).

(** ToBoolean *)
Definition truthy (v : JSValue) : bool :=
  match v with
  | JUndefined | JNull => false
  | JBool b => b
  | JNum n => negb (Z.eqb n 0)
  | JStr s => negb (String.eqb s "")
  | JArr _ | JObj _ => true
  end.

(** [typeof v === 'object'] *)
Definition typeof_object (v : JSValue) : bool :=
  match v with
  | JNull | JArr _ | JObj _ => true
  | _ => false
  end.

(** [v === s] for a string literal [s] *)
Definition strict_eq_string (v : JSValue) (s : string) : bool :=
  match v with
  | JStr t => String.eqb t s
  | _ => false
  end.

Fixpoint lookup (name : string) (props : list (string * JSValue)) : JSValue :=
  match props with
  | [] => JUndefined
  | (k, v) :: rest => if String.eqb name k then v else lookup name rest
  end.

(** [v.name] for a [v] that is neither [null] nor [undefined], and a [name]
    that no prototype defines ([status], [url_user], [username], [socials]). *)
Definition getProp (v : JSValue) (name : string) : JSValue :=
  match v with
  | JObj props => lookup name props
  | _ => JUndefined
  end.

Definition string_of_nat (n : nat) : string :=
  NilEmpty.string_of_uint (Nat.to_uint n).

Definition string_of_Z (z : Z) : string :=
  NilEmpty.string_of_int (Z.to_int z).

Fixpoint indexed {A : Type} (i : nat) (l : list A) : list (string * A) :=
  match l with
  | [] => []
  | x :: rest => (string_of_nat i, x) :: indexed (S i) rest
  end.

(** [Object.entries(v)] for a [v] that is neither [null] nor [undefined]: the
    own enumerable properties in iteration order.  An object is kept as the
    list of its properties in that order. *)
Definition Object_entries (v : JSValue) : list (string * JSValue) :=
  match v with
  | JObj props => props
  | JArr items => indexed 0 items
  | JStr s =>
      indexed 0 (map (fun c => JStr (String c EmptyString)) (list_ascii_of_string s))
  | _ => []
  end.

Definition Object_keys (v : JSValue) : list string := map fst (Object_entries v).
Definition Object_values (v : JSValue) : list JSValue := map snd (Object_entries v).

(** A [Set] of strings, in insertion order. *)
Definition Set_has (s : list string) (x : string) : bool :=
  existsb (String.eqb x) s.

Definition Set_add (s : list string) (x : string) : list string :=
  if Set_has s x then s else (s ++ [x])%list.

(* ================================================================== *)
(** ** Exceptions *)

Inductive JSError : Type :=
| ReferenceError (ident : string)   (* an identifier that no scope binds *)
| Error (message : string).         (* [new Error(message)] of the API client *)

(** [err.message] (the wording of V8 for a [ReferenceError]) *)
Definition message (e : JSError) : string :=
  match e with
  | ReferenceError ident => ident ++ " is not defined"
  | Error m => m
  end.

Inductive Completion (A : Type) : Type :=
| Normal (a : A)
| Throw (e : JSError).
Arguments Normal {A} a.
Arguments Throw {A} e.

Definition bind {A B : Type} (c : Completion A) (k : A -> Completion B) : Completion B :=
  match c with
  | Normal a => k a
  | Throw e => Throw e
  end.

Notation "x <- c ;; k" := (bind c (fun x => k))
  (at level 61, c at next level, right associativity).

(* ================================================================== *)
(** ** The component state *)

(** One element of [searchResults]. *)
Record FoundAccount : Type := {
  platform : string;
  url : JSValue;
  handle : JSValue;
  displayName : string
}.

(** The [let] variables of the component that the search reads or writes. *)
Record State : Type := {
  person : JSValue;
  searchingAccounts : bool;
  searchResults : list FoundAccount;
  searchError : JSValue;                 (* [string | null] *)
  searchJobId : option string;           (* [string | null] *)
  searchJobStatus : option string;       (* [string | null] *)
  searchJobPolling : bool;
  currentSearchUsername : string
}.

Definition set_searchingAccounts (b : bool) (st : State) : State :=
  {| person := person st; searchingAccounts := b;
     searchResults := searchResults st; searchError := searchError st;
     searchJobId := searchJobId st; searchJobStatus := searchJobStatus st;
     searchJobPolling := searchJobPolling st;
     currentSearchUsername := currentSearchUsername st |}.

Definition set_searchResults (l : list FoundAccount) (st : State) : State :=
  {| person := person st; searchingAccounts := searchingAccounts st;
     searchResults := l; searchError := searchError st;
     searchJobId := searchJobId st; searchJobStatus := searchJobStatus st;
     searchJobPolling := searchJobPolling st;
     currentSearchUsername := currentSearchUsername st |}.

Definition set_searchError (v : JSValue) (st : State) : State :=
  {| person := person st; searchingAccounts := searchingAccounts st;
     searchResults := searchResults st; searchError := v;
     searchJobId := searchJobId st; searchJobStatus := searchJobStatus st;
     searchJobPolling := searchJobPolling st;
     currentSearchUsername := currentSearchUsername st |}.

Definition set_searchJobStatus (s : string) (st : State) : State :=
  {| person := person st; searchingAccounts := searchingAccounts st;
     searchResults := searchResults st; searchError := searchError st;
     searchJobId := searchJobId st; searchJobStatus := Some s;
     searchJobPolling := searchJobPolling st;
     currentSearchUsername := currentSearchUsername st |}.

Definition set_searchJobPolling (b : bool) (st : State) : State :=
  {| person := person st; searchingAccounts := searchingAccounts st;
     searchResults := searchResults st; searchError := searchError st;
     searchJobId := searchJobId st; searchJobStatus := searchJobStatus st;
     searchJobPolling := b;
     currentSearchUsername := currentSearchUsername st |}.

(* ================================================================== *)
(** ** processSearchResults *)

(** The set [existingSocials]: the slugified keys of [person.socials]. *)
Definition existingSocials (person : JSValue) : list string :=
  if truthy (getProp person "socials")
  then fold_left (fun set key => Set_add set (slugify key))
                 (Object_keys (getProp person "socials")) []
  else [].

(** The identifier [searchUsername] as [processSearchResults] sees it.  Its
    only declaration is a [let] inside [searchSocialAccounts]; the scope of
    [processSearchResults] (its own locals, then the component's variables,
    among them [currentSearchUsername], then the globals) has no binding for
    it, so evaluating it throws. *)
Definition searchUsername_in_processSearchResults : Completion JSValue :=
  Throw (ReferenceError "searchUsername").

(** [res.username || searchUsername] *)
Definition handleOf (res : JSValue) : Completion JSValue :=
  if truthy (getProp res "username") then Normal (getProp res "username")
  else searchUsername_in_processSearchResults.

(** One iteration of [for (const [siteName, result] of Object.entries(results))]. *)
Definition visitEntry (existing : list string) (foundAccounts : list FoundAccount)
           (entry : string * JSValue) : Completion (list FoundAccount) :=
  let '(siteName, result) := entry in
  if truthy result && typeof_object result then
    let res := result in
    if strict_eq_string (getProp res "status") "Claimed"
       && truthy (getProp res "url_user") then
      let platformSlug := slugify siteName in
      if Set_has existing platformSlug then Normal foundAccounts
      else
        h <- handleOf res ;;
        Normal (foundAccounts ++
                  [ {| platform := platformSlug;
                       url := getProp res "url_user";
                       handle := h;
                       displayName := siteName |} ])%list
    else Normal foundAccounts
  else Normal foundAccounts.

Fixpoint forEntries (existing : list string) (foundAccounts : list FoundAccount)
         (entries : list (string * JSValue)) : Completion (list FoundAccount) :=
  match entries with
  | [] => Normal foundAccounts
  | entry :: rest =>
      found' <- visitEntry existing foundAccounts entry ;;
      forEntries existing found' rest
  end.

(** The predicate of the [filter] that computes [totalClaimed]. *)
Definition isClaimed (r : JSValue) : bool :=
  truthy r && typeof_object r && strict_eq_string (getProp r "status") "Claimed".

Definition totalClaimed (results : JSValue) : nat :=
  List.length (filter isClaimed (Object_values results)).

(** The statements after the loop. *)
Definition report (results : JSValue) (foundAccounts : list FoundAccount)
           (st : State) : State :=
  let st := set_searchResults foundAccounts st in
  if Nat.eqb (List.length foundAccounts) 0 then
    let skippedCount :=
      (Z.of_nat (totalClaimed results) - Z.of_nat (List.length foundAccounts))%Z in
    if (0 <? skippedCount)%Z then
      set_searchError
        (JStr ("No new social accounts found (" ++ string_of_Z skippedCount
               ++ " platforms already added)")) st
    else set_searchError (JStr "No social accounts found") st
  else
    set_searchJobStatus
      ("Found " ++ string_of_nat (List.length foundAccounts) ++ " new social accounts") st.

Definition processSearchResults (results : JSValue) (st : State) : Completion State :=
  if negb (truthy results) || negb (truthy (person st)) then Normal st
  else
    foundAccounts <- forEntries (existingSocials (person st)) [] (Object_entries results) ;;
    Normal (report results foundAccounts st).

(** *** Reading the loop as a filter

    The keys of [person.socials]; what the loop tests of an entry; and the
    element it pushes for an entry whose [username] is truthy. *)
Definition knownKeys (person : JSValue) : list string :=
  Object_keys (getProp person "socials").

Definition qualifies (existing : list string) (entry : string * JSValue) : bool :=
  truthy (snd entry) && typeof_object (snd entry)
  && strict_eq_string (getProp (snd entry) "status") "Claimed"
  && truthy (getProp (snd entry) "url_user")
  && negb (Set_has existing (slugify (fst entry))).

Definition hasUsername (entry : string * JSValue) : bool :=
  truthy (getProp (snd entry) "username").

Definition candidateOf (entry : string * JSValue) : FoundAccount :=
  {| platform := slugify (fst entry);
     url := getProp (snd entry) "url_user";
     handle := getProp (snd entry) "username";
     displayName := fst entry |}.

(** Whether the loop runs to its end: no entry that would be pushed lacks a
    truthy [username]. *)
Definition completes (existing : list string) (entries : list (string * JSValue)) : bool :=
  forallb (fun entry => negb (qualifies existing entry) || hasUsername entry) entries.

(** A candidate without its display label. *)
Definition eraseLabel (c : FoundAccount) : string * JSValue * JSValue :=
  (platform c, url c, handle c).

Definition eraseLabels (r : Completion (list FoundAccount))
  : Completion (list (string * JSValue * JSValue)) :=
  found <- r ;; Normal (map eraseLabel found).

(** The findings with status Claimed that the loop passes over at its
    [continue], because their key is known. *)
Definition skippedExisting (person results : JSValue) : nat :=
  List.length
    (filter (fun entry =>
               isClaimed (snd entry) && truthy (getProp (snd entry) "url_user")
               && Set_has (existingSocials person) (slugify (fst entry)))
            (Object_entries results)).

(** The findings with status Claimed whose [url_user] is falsy. *)
Definition claimedWithoutUrl (results : JSValue) : nat :=
  List.length
    (filter (fun entry =>
               isClaimed (snd entry) && negb (truthy (getProp (snd entry) "url_user")))
            (Object_entries results)).

(** The state of the component when a search is started for [person]. *)
Definition searching (person : JSValue) (jobId : string) : State :=
  {| person := person; searchingAccounts := true; searchResults := [];
     searchError := JNull; searchJobId := Some jobId;
     searchJobStatus := Some "Search queued successfully";
     searchJobPolling := false; currentSearchUsername := "" |}.

(** The state that a call of [processSearchResults] leaves; a call that
    throws has assigned nothing. *)
Definition reconciled (results : JSValue) (st : State) : State :=
  match processSearchResults results st with
  | Normal st' => st'
  | Throw _ => st
  end.

(** *** Sample inputs *)

Definition claimed (url : string) : JSValue :=
  JObj [("status", JStr "Claimed"); ("url_user", JStr url)].

Definition claimedAs (url username : string) : JSValue :=
  JObj [("status", JStr "Claimed"); ("url_user", JStr url);
        ("username", JStr username)].

Definition personWith (socials : list (string * JSValue)) : JSValue :=
  JObj [("first_name", JStr "Jane"); ("socials", JObj socials)].

(** Scenario A of the specification. *)
Definition scenarioA_results : JSValue :=
  JObj [("GitHub", claimed "https://github.com/jdoe")].

Definition scenarioA_state : State := searching (personWith []) "job-1".

(** A registry with a legacy key that is not canonical. *)
Definition legacy_state : State :=
  searching (personWith [("Git Hub", JStr "jdoe")]) "job-2".

Definition legacy_results : JSValue :=
  JObj [("git hub", claimedAs "https://github.com/jdoe" "jdoe");
        ("Reddit", claimedAs "https://www.reddit.com/user/jdoe99" "jdoe99")].

(** A finding without [username] after one that has it. *)
Definition mixed_results : JSValue :=
  JObj [("Reddit", claimedAs "https://www.reddit.com/user/jdoe99" "jdoe99");
        ("GitLab", claimed "https://gitlab.com/jdoe")].

Definition mixed_state : State :=
  searching (personWith [("github", JStr "jdoe")]) "job-3".

(** A finding with status Claimed and no [url_user]. *)
Definition urlless_results : JSValue :=
  JObj [("Imgur", JObj [("status", JStr "Claimed")])].

(* ================================================================== *)
(** ** pollSearchResults *)

(** What [api.get_sherlock_job_status] resolves to: an object with a string
    [status]; an absent [results] or [error] is [JUndefined].  A response
    body that is not such an object is outside the model. *)
Record JobStatus : Type := {
  status : string;
  results : JSValue;
  error : JSValue
}.

(** The promise of one call either resolves or rejects ([request] throws
    [new Error(text || res.statusText)] on a response that is not ok). *)
Inductive PollResponse : Type :=
| Resolved (jobStatus : JobStatus)
| Rejected (err : JSError).

(** The backend as the tracker sees it: the answer to its [k]-th call of
    [get_sherlock_job_status], counted from 0.  The tracker has no other
    access to the job. *)
Definition Backend : Type := nat -> PollResponse.

(** What one run of the tracker does to the outside, in order. *)
Inductive Effect : Type :=
| GetStatus (jobId : option string)   (* [api.get_sherlock_job_status(searchJobId)] *)
| SetTimeout (ms : Z)                 (* [setTimeout(poll, ms)] *)
| LoadRecentJobs.                     (* [loadRecentJobs()] *)

(** [v || d] *)
Definition or_else (v d : JSValue) : JSValue := if truthy v then v else d.

(** The [catch] block of [poll]. *)
Definition onPollError (err : JSError) (st : State) : State :=
  set_searchJobPolling false
    (set_searchingAccounts false
       (set_searchError (or_else (JStr (message err))
                                 (JStr "Failed to check search status")) st)).

Definition onFailed (jobStatus : JobStatus) (st : State) : State :=
  set_searchJobPolling false
    (set_searchingAccounts false
       (set_searchError (or_else (error jobStatus) (JStr "Search failed")) st)).

Definition onTimedOut (st : State) : State :=
  set_searchJobPolling false
    (set_searchingAccounts false
       (set_searchError (JStr "Search timed out - check results later") st)).

(** The closure [poll].  [attempts] is the counter of the enclosing
    [pollSearchResults]; every run of [poll] that does not end the tracking
    increments it once, so it is also the number of calls made so far.  A
    pending timer is followed at once: [fuel] bounds the number of runs. *)
Fixpoint poll (fuel : nat) (maxAttempts : nat) (backend : Backend)
         (attempts : nat) (st : State) (log : list Effect)
  : option (State * list Effect) :=
  match fuel with
  | O => None
  | S fuel' =>
      let log := (log ++ [GetStatus (searchJobId st)])%list in
      match backend attempts with
      | Rejected err => Some (onPollError err st, log)
      | Resolved jobStatus =>
          let st := set_searchJobStatus ("Status: " ++ status jobStatus) st in
          if String.eqb (status jobStatus) "completed" then
            match processSearchResults (results jobStatus) st with
            | Throw err => Some (onPollError err st, log)
            | Normal st' =>
                Some (set_searchJobPolling false (set_searchingAccounts false st'),
                      (log ++ [LoadRecentJobs])%list)
            end
          else if String.eqb (status jobStatus) "failed" then
            Some (onFailed jobStatus st, (log ++ [LoadRecentJobs])%list)
          else
            let st := if String.eqb (status jobStatus) "running"
                      then set_searchJobStatus "Search in progress..." st
                      else st in
            let attempts := S attempts in
            if (attempts <? maxAttempts)%nat
               && (String.eqb (status jobStatus) "pending"
                   || String.eqb (status jobStatus) "running")
            then poll fuel' maxAttempts backend attempts st
                      (log ++ [SetTimeout 5000])%list
            else if (maxAttempts <=? attempts)%nat then Some (onTimedOut st, log)
            else Some (st, log)
      end
  end.

(** [pollSearchResults] with the constant [maxAttempts] as a parameter. *)
Definition pollWithBudget (maxAttempts : nat) (backend : Backend) (st : State)
  : option (State * list Effect) :=
  match searchJobId st with
  | None => Some (st, [])
  | Some jobId =>
      if String.eqb jobId "" then Some (st, [])
      else poll (S maxAttempts) maxAttempts backend 0 (set_searchJobPolling true st) []
  end.

Definition maxAttempts : nat := 60.

Definition pollSearchResults (backend : Backend) (st : State)
  : option (State * list Effect) :=
  pollWithBudget maxAttempts backend st.

(** *** The runs of [poll], one by one

    A run of [poll] sets a timer exactly when [continues] holds of the answer
    and the incremented counter is below [maxAttempts]; [noteProgress] is
    what such a run assigns.  [lastPoll] is a run that sets no timer: the
    state it leaves and what it does after its call of the backend. *)
Definition continues (resp : PollResponse) : bool :=
  match resp with
  | Resolved jobStatus =>
      String.eqb (status jobStatus) "pending" || String.eqb (status jobStatus) "running"
  | Rejected _ => false
  end.

Definition noteProgress (jobStatus : JobStatus) (st : State) : State :=
  let st := set_searchJobStatus ("Status: " ++ status jobStatus) st in
  if String.eqb (status jobStatus) "running"
  then set_searchJobStatus "Search in progress..." st
  else st.

Definition lastPoll (maxAttempts : nat) (resp : PollResponse) (attempts : nat)
           (st : State) : State * list Effect :=
  match resp with
  | Rejected err => (onPollError err st, [])
  | Resolved jobStatus =>
      let seen := set_searchJobStatus ("Status: " ++ status jobStatus) st in
      if String.eqb (status jobStatus) "completed" then
        match processSearchResults (results jobStatus) seen with
        | Throw err => (onPollError err seen, [])
        | Normal st' =>
            (set_searchJobPolling false (set_searchingAccounts false st'),
             [LoadRecentJobs])
        end
      else if String.eqb (status jobStatus) "failed" then
        (onFailed jobStatus seen, [LoadRecentJobs])
      else if (maxAttempts <=? S attempts)%nat then
        (onTimedOut (noteProgress jobStatus st), [])
      else (noteProgress jobStatus st, [])
  end.

(** The state after [n] runs that set a timer, the first of them with the
    counter at [attempts]. *)
Fixpoint afterPolls (backend : Backend) (attempts n : nat) (st : State) : State :=
  match n with
  | O => st
  | S n' =>
      match backend attempts with
      | Resolved jobStatus =>
          afterPolls backend (S attempts) n' (noteProgress jobStatus st)
      | Rejected _ => st
      end
  end.

(** What [n] such runs do: a call of the backend and a timer each. *)
Fixpoint pollLog (jobId : option string) (n : nat) : list Effect :=
  match n with
  | O => []
  | S n' => GetStatus jobId :: SetTimeout 5000 :: pollLog jobId n'
  end.

(** *** Sample backends *)

Definition answer (s : string) (res : JSValue) : PollResponse :=
  Resolved {| status := s; results := res; error := JUndefined |}.

(** Completed at the first poll. *)
Definition completedAtOnce (res : JSValue) : Backend := fun _ => answer "completed" res.

(** Running for the first [n] polls, completed from then on (scenario C
    has [n = 3]). *)
Definition runningThenCompleted (n : nat) (res : JSValue) : Backend :=
  fun k => if (k <? n)%nat then answer "running" JUndefined else answer "completed" res.

(** Pending for ever (scenario D). *)
Definition alwaysPending : Backend := fun _ => answer "pending" JUndefined.

(** Failed at the first poll, with the error text [detail]. *)
Definition failedAtOnce (detail : string) : Backend :=
  fun _ => Resolved {| status := "failed"; results := JUndefined; error := JStr detail |}.

(** The first call is rejected; the job is completed by the second. *)
Definition errorThenCompleted (res : JSValue) : Backend :=
  fun k => match k with
           | O => Rejected (Error "Service Unavailable")
           | S _ => answer "completed" res
           end.

(** Pending, then a rejected call, then completed. *)
Definition pendingErrorCompleted (res : JSValue) : Backend :=
  fun k => match k with
           | 0 => answer "pending" JUndefined
           | 1 => Rejected (Error "")
           | _ => answer "completed" res
           end.

(** What a run of the tracker leaves: the state and the log. *)
Definition tracked (budget : nat) (backend : Backend) (st : State)
  : State * list Effect :=
  match pollWithBudget budget backend st with
  | Some r => r
  | None => (st, [])
  end.

Definition isGetStatus (e : Effect) : bool :=
  match e with GetStatus _ => true | _ => false end.

(** The number of polls of a run. *)
Definition pollsIssued (log : list Effect) : nat :=
  List.length (filter isGetStatus log).

(** The delays of the timers a run has set. *)
Fixpoint delays (log : list Effect) : list Z :=
  match log with
  | [] => []
  | SetTimeout ms :: rest => ms :: delays rest
  | _ :: rest => delays rest
  end.

Definition isTerminal (s : string) : bool :=
  String.eqb s "completed" || String.eqb s "failed".

(* ================================================================== *)
(** ** checkJobResults *)

Definition set_searchJobId (jobId : string) (st : State) : State :=
  {| person := person st; searchingAccounts := searchingAccounts st;
     searchResults := searchResults st; searchError := searchError st;
     searchJobId := Some jobId; searchJobStatus := searchJobStatus st;
     searchJobPolling := searchJobPolling st;
     currentSearchUsername := currentSearchUsername st |}.

(** The [catch] block of [checkJobResults]. *)
Definition onCheckError (err : JSError) (st : State) : State :=
  set_searchError (or_else (JStr (message err))
                           (JStr "Failed to check job status")) st.

(** The calls of the backend that follow the first one. *)
Definition laterCalls (backend : Backend) : Backend := fun k => backend (S k).

(** [checkJobResults(jobId)]: one call of the backend, the answer to which is
    [backend 0]; when the job is not finished, [pollSearchResults()] goes on
    with the later calls, and is followed here to its end. *)
Definition checkJobResults (backend : Backend) (jobId : string) (st : State)
  : option (State * list Effect) :=
  let log := [GetStatus (Some jobId)] in
  match backend 0 with
  | Rejected err => Some (onCheckError err st, log)
  | Resolved jobStatus =>
      if String.eqb (status jobStatus) "completed" && truthy (results jobStatus) then
        let cleared := set_searchResults [] (set_searchError JNull st) in
        match processSearchResults (results jobStatus) cleared with
        | Throw err => Some (onCheckError err cleared, log)
        | Normal st' =>
            Some (set_searchJobStatus "Loaded results from previous search"
                    (set_searchJobId jobId st'), log)
        end
      else if String.eqb (status jobStatus) "failed" then
        Some (set_searchError (or_else (error jobStatus) (JStr "Previous search failed")) st,
              log)
      else
        let resumed :=
          set_searchJobStatus ("Resuming search: " ++ status jobStatus)
            (set_searchingAccounts true (set_searchJobId jobId st)) in
        match pollSearchResults (laterCalls backend) resumed with
        | Some (st', polled) => Some (st', (log ++ polled)%list)
        | None => None
        end
  end.

(** A string that does not begin with whitespace. *)
Definition startsClean (s : string) : bool :=
  match s with
  | EmptyString => true
  | String c _ => negb (isWhiteSpace c)
  end.

(* ================================================================== *)
(** ** Own properties of an object *)

Module OwnProps.

Definition isDigit (c : ascii) : bool :=
  let n := code c in ((48 <=? n) && (n <=? 57))%N.

Fixpoint digitsValue (acc : N) (s : string) : N :=
  match s with
  | EmptyString => acc
  | String c r => digitsValue (acc * 10 + (code c - 48))%N r
  end.

(** An array index: the canonical decimal form of an integer below
    2^32 - 1.  Such keys come first in the order of the own properties, by
    value; the other keys follow in the order of their creation. *)
Definition isArrayIndex (s : string) : bool :=
  match s with
  | EmptyString => false
  | String c r =>
      allChars isDigit s
      && (negb (Ascii.eqb c "0") || String.eqb r "")
      && (digitsValue 0 s <=? 4294967294)%N
  end.

Fixpoint hasOwn {A : Type} (key : string) (o : list (string * A)) : bool :=
  match o with
  | [] => false
  | (k, _) :: rest => String.eqb key k || hasOwn key rest
  end.

Fixpoint getOwn {A : Type} (key : string) (o : list (string * A)) : option A :=
  match o with
  | [] => None
  | (k, v) :: rest => if String.eqb key k then Some v else getOwn key rest
  end.

Fixpoint replaceOwn {A : Type} (key : string) (v : A) (o : list (string * A))
  : list (string * A) :=
  match o with
  | [] => []
  | (k, w) :: rest =>
      if String.eqb key k then (k, v) :: rest else (k, w) :: replaceOwn key v rest
  end.

Fixpoint insertIndex {A : Type} (key : string) (v : A) (o : list (string * A))
  : list (string * A) :=
  match o with
  | [] => [(key, v)]
  | (k, w) :: rest =>
      if isArrayIndex k && (digitsValue 0 k <? digitsValue 0 key)%N
      then (k, w) :: insertIndex key v rest
      else (key, v) :: o
  end.

(** Creating or overwriting the own property [key]. *)
Definition defineOwn {A : Type} (key : string) (v : A) (o : list (string * A))
  : list (string * A) :=
  if hasOwn key o then replaceOwn key v o
  else if isArrayIndex key then insertIndex key v o
  else (o ++ [(key, v)])%list.

(** [o[key] = v] for a string [v] and an object [o] whose prototype is
    [Object.prototype]: the key [__proto__] reaches the setter of the
    prototype, which ignores a value that is neither an object nor [null]. *)
Definition assignString (key v : string) (o : list (string * string))
  : list (string * string) :=
  if String.eqb key "__proto__" then o else defineOwn key v o.

End OwnProps.

(* ================================================================== *)
(** ** What the pages ask of the API *)

(** The outcome of a request whose answer the caller does not read. *)
Inductive ApiResult : Type :=
| ApiOk
| ApiRejected (err : JSError).

(** [String(err)] *)
Definition String_of_error (err : JSError) : string :=
  match err with
  | ReferenceError ident => "ReferenceError: " ++ ident ++ " is not defined"
  | Error m => if String.eqb m "" then "Error" else "Error: " ++ m
  end.

(** [err.message || String(err)] *)
Definition errorText (err : JSError) : string :=
  if String.eqb (message err) "" then String_of_error err else message err.

Definition nonEmpty (s : string) : bool := negb (String.eqb s "").

(** [r.platform !== key] *)
Definition isOtherPlatform (key : string) (r : FoundAccount) : bool :=
  negb (String.eqb (platform r) key).

(* ================================================================== *)
(** ** The person page: adding and confirming accounts *)

Module PersonPage.

(** The variables of the page that these actions read or write, around the
    state of the search. *)
Record Page : Type := {
  search : State;
  id : string;
  error : option string;            (* [string | null] *)
  loading : bool;
  newPlatformDisplay : string;
  newPlatformSlug : option string;  (* [string | null] *)
  newHandle : string
}.

Inductive Call : Type :=
| UpdatePerson (id : string) (payload : JSValue)   (* [api.update_person(id, payload)] *)
| GetPerson (id : string).                         (* [api.get_person(id)] *)

Definition set_error (e : option string) (p : Page) : Page :=
  {| search := search p; id := id p; error := e; loading := loading p;
     newPlatformDisplay := newPlatformDisplay p;
     newPlatformSlug := newPlatformSlug p; newHandle := newHandle p |}.

Definition set_search (s : State) (p : Page) : Page :=
  {| search := s; id := id p; error := error p; loading := loading p;
     newPlatformDisplay := newPlatformDisplay p;
     newPlatformSlug := newPlatformSlug p; newHandle := newHandle p |}.

Definition clearInputs (p : Page) : Page :=
  {| search := search p; id := id p; error := error p; loading := loading p;
     newPlatformDisplay := ""; newPlatformSlug := None; newHandle := "" |}.

(** [load()], up to its first [await]: it marks the page as loading, clears
    the error and asks for the person. *)
Definition load (p : Page) : Page * list Call :=
  ({| search := search p; id := id p; error := None; loading := true;
      newPlatformDisplay := newPlatformDisplay p;
      newPlatformSlug := newPlatformSlug p; newHandle := newHandle p |},
   [GetPerson (id p)]).

(** What follows [await api.update_person(id, payload)] in every action:
    [onOk] and [load()] when the request is fulfilled, the [catch] block
    when it is rejected. *)
Definition afterUpdate (resp : ApiResult) (payload : JSValue) (onOk : Page -> Page)
           (p : Page) : Page * list Call :=
  match resp with
  | ApiOk =>
      let '(p', calls) := load (onOk p) in
      (p', UpdatePerson (id p) payload :: calls)
  | ApiRejected err =>
      (set_error (Some (errorText err)) p, [UpdatePerson (id p) payload])
  end.

(** [newPlatformSlug || display] *)
Definition chosenKey (p : Page) : string :=
  match newPlatformSlug p with
  | Some s => if nonEmpty s then s else trim (newPlatformDisplay p)
  | None => trim (newPlatformDisplay p)
  end.

(** [addSocial()] *)
Definition addSocial (resp : ApiResult) (p : Page) : Page * list Call :=
  let handle := trim (newHandle p) in
  let key := chosenKey p in
  let key := if nonEmpty key then slugify key else key in
  if negb (nonEmpty key) then
    (set_error (Some "Please choose a platform") p, [])
  else if negb (nonEmpty handle) then
    (set_error (Some "Handle cannot be empty") p, [])
  else
    afterUpdate resp (JObj [("socials", JObj [(key, JStr handle)])]) clearInputs p.

(** [confirmSocial(platform)] and [rejectSocial(platform)] *)
Definition setSocialStatus (verdict : string) (resp : ApiResult) (platform : string)
           (p : Page) : Page * list Call :=
  let normalizedKey := slugify platform in
  afterUpdate resp (JObj [("socials_status", JObj [(normalizedKey, JStr verdict)])])
              (fun p => p) p.

Definition confirmSocial := setSocialStatus "confirmed".
Definition rejectSocial := setSocialStatus "rejected".

(** [addFoundAccount(platform, handle)] *)
Definition addFoundAccount (resp : ApiResult) (platform : string) (handle : JSValue)
           (p : Page) : Page * list Call :=
  afterUpdate resp (JObj [("socials", JObj [(platform, handle)])])
    (fun p =>
       set_search
         (set_searchResults
            (filter (isOtherPlatform platform) (searchResults (search p)))
            (search p)) p)
    p.

End PersonPage.

(** A page on which a platform and a handle have been typed. *)
Definition typedPage (display : string) (slug : option string) (handle : string)
  : PersonPage.Page :=
  {| PersonPage.search := legacy_state;
     PersonPage.id := "42";
     PersonPage.error := None;
     PersonPage.loading := false;
     PersonPage.newPlatformDisplay := display;
     PersonPage.newPlatformSlug := slug;
     PersonPage.newHandle := handle |}.

(** The page after a search has stored its candidates. *)
Definition pageShowing (st : State) : PersonPage.Page :=
  {| PersonPage.search := st;
     PersonPage.id := "42";
     PersonPage.error := None;
     PersonPage.loading := false;
     PersonPage.newPlatformDisplay := "";
     PersonPage.newPlatformSlug := None;
     PersonPage.newHandle := "" |}.

(* ================================================================== *)
(** ** The page that adds a person: submit *)

Module AddPage.

(** One row of [socials]. *)
Record SocialRow : Type := {
  display : string;
  slug : option string;     (* [string | null] *)
  handle : string
}.

(** The only text that [message] ever holds: the literal of [submit] that
    tells that the person was added. *)
Inductive Notice : Type := PersonAdded.

Record Form : Type := {
  first_name : string;
  last_name : string;
  email : string;
  phone_number : string;
  address : JSValue;
  socials : list SocialRow;
  alt_phones : string;
  alt_emails : string;
  aliases : string;
  notes : string;
  message : option Notice;   (* [string | null] *)
  error : option string      (* [string | null] *)
}.

(** [s.split(sep)] for a separator of one character. *)
Fixpoint splitOn (sep : ascii) (s : string) : list string :=
  match s with
  | EmptyString => [EmptyString]
  | String c r =>
      if Ascii.eqb c sep then EmptyString :: splitOn sep r
      else match splitOn sep r with
           | [] => [String c EmptyString]
           | w :: ws => String c w :: ws
           end
  end.

(** [s.split(',').map((s) => s.trim()).filter(Boolean)] *)
Definition commaItems (s : string) : list string :=
  filter nonEmpty (map trim (splitOn "," s)).

(** [s ? s.split(',')... : undefined] *)
Definition commaField (s : string) : JSValue :=
  if nonEmpty s then JArr (map JStr (commaItems s)) else JUndefined.

(** [s && s.trim() ? s.trim() : undefined] *)
Definition trimmedField (s : string) : JSValue :=
  if nonEmpty s && nonEmpty (trim s) then JStr (trim s) else JUndefined.

(** [s.slug || s.display || ''], slugified when it is not empty. *)
Definition rowKey (s : SocialRow) : string :=
  let key := match slug s with
             | Some k => if nonEmpty k then k else display s
             | None => display s
             end in
  if nonEmpty key then slugify key else key.

(** The callback of [socials.reduce]. *)
Definition addRow (acc : list (string * string)) (s : SocialRow)
  : list (string * string) :=
  let key := rowKey s in
  if nonEmpty key && nonEmpty (handle s)
  then OwnProps.assignString key (trim (handle s)) acc
  else acc.

(** The rows at which the callback assigns to the key [k]. *)
Definition writes (k : string) (s : SocialRow) : bool :=
  String.eqb (rowKey s) k && nonEmpty (rowKey s) && nonEmpty (handle s).

(** [socialsObj]: [None] is [null]. *)
Definition socialsObj (rows : list SocialRow) : option (list (string * string)) :=
  match rows with
  | [] => None
  | _ => Some (fold_left addRow rows [])
  end.

Definition payloadOf (f : Form) : JSValue :=
  JObj [ ("first_name", JStr (first_name f));
         ("last_name", JStr (last_name f));
         ("email", trimmedField (email f));
         ("phone_number", trimmedField (phone_number f));
         ("address", or_else (address f) JUndefined);
         ("socials", match socialsObj (socials f) with
                     | None => JNull
                     | Some o => JObj (map (fun kv => (fst kv, JStr (snd kv))) o)
                     end);
         ("alternate_phones", commaField (alt_phones f));
         ("alternate_emails", commaField (alt_emails f));
         ("aliases", commaField (aliases f));
         ("notes", if nonEmpty (notes f) then JStr (notes f) else JUndefined) ].

(** [submit()]: [resp] is the outcome of [api.create_person(payload)]; the
    payload of the call is returned beside the form. *)
Definition submit (resp : ApiResult) (f : Form) : Form * JSValue :=
  match resp with
  | ApiOk =>
      ({| first_name := ""; last_name := ""; email := ""; phone_number := "";
          address := JNull; socials := [];
          alt_phones := ""; alt_emails := ""; aliases := ""; notes := "";
          message := Some PersonAdded; error := None |},
       payloadOf f)
  | ApiRejected err =>
      ({| first_name := first_name f; last_name := last_name f;
          email := email f; phone_number := phone_number f;
          address := address f; socials := socials f;
          alt_phones := alt_phones f; alt_emails := alt_emails f;
          aliases := aliases f; notes := notes f;
          message := None; error := Some (errorText err) |},
       payloadOf f)
  end.

End AddPage.

(** Three rows of the form: the first and the last name one platform. *)
Definition sampleRows : list AddPage.SocialRow :=
  [ {| AddPage.display := "GitHub"; AddPage.slug := None; AddPage.handle := " jdoe " |};
    {| AddPage.display := "Reddit"; AddPage.slug := Some "reddit";
       AddPage.handle := "jdoe99" |};
    {| AddPage.display := " git hub"; AddPage.slug := Some "GitHub";
       AddPage.handle := "jane" |} ].

(* ================================================================== *)
(** * Properties of the key normaliser *)

Section CharFacts.

Lemma slugChar_not_whiteSpace (c : ascii) :
  isSlugChar c = true -> isWhiteSpace c = false.
Proof.
  destruct c as [[] [] [] [] [] [] [] []]; vm_compute; congruence.
Qed.

Lemma slugChar_lower (c : ascii) :
  isSlugChar c = true -> toLowerChar c = c.
Proof.
  destruct c as [[] [] [] [] [] [] [] []]; vm_compute; congruence.
Qed.

End CharFacts.

Lemma allChars_cons (p : ascii -> bool) (c : ascii) (s : string) :
  allChars p (String c s) = true <-> p c = true /\ allChars p s = true.
Proof. simpl. apply andb_true_iff. Qed.

Lemma replaceEach_only_slugChars (s : string) :
  allChars isSlugChar (replaceEach (fun c => negb (isSlugChar c)) "" s) = true.
Proof.
  induction s as [|c r IH]; simpl; [reflexivity|].
  destruct (isSlugChar c) eqn:Hc; simpl; [rewrite Hc|]; exact IH.
Qed.

Lemma trimStart_slug (s : string) :
  allChars isSlugChar s = true -> trimStart s = s.
Proof.
  destruct s as [|c r]; simpl; [reflexivity|].
  intros H. apply andb_true_iff in H as [Hc _].
  now rewrite (slugChar_not_whiteSpace c Hc).
Qed.

Lemma trimEnd_slug (s : string) :
  allChars isSlugChar s = true -> trimEnd s = s.
Proof.
  induction s as [|c r IH]; simpl; [reflexivity|].
  intros H. apply andb_true_iff in H as [Hc Hr].
  rewrite (IH Hr), (slugChar_not_whiteSpace c Hc).
  now destruct r.
Qed.

Lemma toLowerCase_slug (s : string) :
  allChars isSlugChar s = true -> toLowerCase s = s.
Proof.
  induction s as [|c r IH]; simpl; [reflexivity|].
  intros H. apply andb_true_iff in H as [Hc Hr].
  now rewrite (IH Hr), (slugChar_lower c Hc).
Qed.

Lemma replaceRuns_slug (b : bool) (s : string) :
  allChars isSlugChar s = true -> replaceRuns isWhiteSpace "_" b s = s.
Proof.
  revert b. induction s as [|c r IH]; simpl; intros b H; [reflexivity|].
  apply andb_true_iff in H as [Hc Hr].
  now rewrite (slugChar_not_whiteSpace c Hc), (IH false Hr).
Qed.

Lemma replaceEach_slug (s : string) :
  allChars isSlugChar s = true ->
  replaceEach (fun c => negb (isSlugChar c)) "" s = s.
Proof.
  induction s as [|c r IH]; simpl; [reflexivity|].
  intros H. apply andb_true_iff in H as [Hc Hr].
  now rewrite Hc, (IH Hr).
Qed.

Lemma slugify_only_slugChars (s : string) :
  allChars isSlugChar (slugify s) = true.
Proof. apply replaceEach_only_slugChars. Qed.

Lemma slugify_canonical (k : string) :
  allChars isSlugChar k = true -> slugify k = k.
Proof.
  intros H. unfold slugify, trim.
  now rewrite (trimStart_slug k H), (trimEnd_slug k H), (toLowerCase_slug k H),
    (replaceRuns_slug false k H), (replaceEach_slug k H).
Qed.

Lemma slugify_idempotent (s : string) : slugify (slugify s) = slugify s.
Proof. apply slugify_canonical, slugify_only_slugChars. Qed.

(** *** The source's [slugify] against the words of the specification *)

Section Refinement.

Import NormalizeSpec.

Lemma chars_trimStart (s : string) :
  chars (trimStart s) = dropWhile isWhiteSpace (chars s).
Proof.
  induction s as [|c r IH]; simpl; [reflexivity|].
  now destruct (isWhiteSpace c).
Qed.

Lemma dropWhile_app (p : ascii -> bool) (a b : list ascii) :
  dropWhile p (a ++ b) =
  if forallb p a then dropWhile p b else (dropWhile p a ++ b)%list.
Proof.
  induction a as [|x a IH]; simpl; [reflexivity|].
  destruct (p x); simpl; [exact IH | reflexivity].
Qed.

Lemma dropWhile_nil (p : ascii -> bool) (l : list ascii) :
  dropWhile p l = [] <-> forallb p l = true.
Proof.
  induction l as [|x l IH]; simpl; [tauto|].
  destruct (p x); simpl; [exact IH|]. split; discriminate.
Qed.

Lemma chars_nil (s : string) : chars s = [] -> s = "".
Proof. now destruct s. Qed.

Lemma chars_trimEnd (s : string) :
  chars (trimEnd s) = rev (dropWhile isWhiteSpace (rev (chars s))).
Proof.
  induction s as [|c r IH]; [reflexivity|].
  change (chars (String c r)) with (c :: chars r).
  cbn [rev]. rewrite dropWhile_app.
  destruct (forallb isWhiteSpace (rev (chars r))) eqn:Hall.
  - apply dropWhile_nil in Hall. rewrite Hall in IH.
    apply chars_nil in IH. cbn [trimEnd]. rewrite IH.
    cbn. now destruct (isWhiteSpace c).
  - rewrite rev_app_distr. cbn [rev app]. rewrite <- IH.
    cbn [trimEnd].
    destruct (trimEnd r) eqn:Hr; [|reflexivity].
    exfalso. cbn in IH. symmetry in IH.
    assert (Hd : dropWhile isWhiteSpace (rev (chars r)) = []).
    { rewrite <- (rev_involutive (dropWhile _ _)), IH. reflexivity. }
    apply dropWhile_nil in Hd. congruence.
Qed.

Lemma chars_toLowerCase (s : string) :
  chars (toLowerCase s) = map toLowerChar (chars s).
Proof. induction s as [|c r IH]; simpl; [reflexivity|]. now f_equal. Qed.

Lemma chars_replaceRuns (s : string) :
  chars (replaceRuns isWhiteSpace "_" false s) = collapseRuns (chars s).
Proof.
  induction s as [|c r IH]; [reflexivity|].
  change (chars (String c r)) with (c :: chars r).
  cbn [replaceRuns collapseRuns].
  destruct (isWhiteSpace c) eqn:Hc.
  - destruct r as [|c' r']; [reflexivity|].
    change (chars (String c' r')) with (c' :: chars r') in *.
    rewrite <- IH. cbn [replaceRuns].
    destruct (isWhiteSpace c'); reflexivity.
  - cbn. now f_equal.
Qed.

Lemma chars_replaceEach (s : string) :
  chars (replaceEach (fun c => negb (isSlugChar c)) "" s)
  = filter isSlugChar (chars s).
Proof.
  induction s as [|c r IH]; simpl; [reflexivity|].
  destruct (isSlugChar c); simpl; [now f_equal | exact IH].
Qed.

Lemma slugify_refines_normalize (label : string) :
  slugify label = normalize label.
Proof.
  rewrite <- (string_of_list_ascii_of_string (slugify label)).
  unfold normalize, slugify, trim, trimSurrounding. f_equal.
  fold chars.
  now rewrite chars_replaceEach, chars_replaceRuns, chars_toLowerCase,
    chars_trimEnd, chars_trimStart.
Qed.

End Refinement.

(** C4.  [slugify] is a total function of its argument alone that trims the
    surrounding whitespace, lower-cases, replaces every run of whitespace by
    one underscore and removes every character outside [a-z0-9_-]: on every
    string it agrees with the normaliser written from the words of the
    specification, and it maps " My Cool Site! " to "my_cool_site". *)
Theorem C4_slugify_is_normalize :
  (forall label : string, slugify label = NormalizeSpec.normalize label)
  /\ slugify " My Cool Site! " = "my_cool_site".
Proof.
  split; [exact slugify_refines_normalize | reflexivity].
Qed.

(* ================================================================== *)
(** * Properties of the reconciliation *)

(** *** The set of known keys *)

Lemma Set_has_add (s : list string) (x y : string) :
  Set_has (Set_add s x) y = Set_has s y || String.eqb y x.
Proof.
  unfold Set_add. destruct (Set_has s x) eqn:Hx.
  - destruct (String.eqb y x) eqn:Hyx.
    + apply String.eqb_eq in Hyx. subst y. now rewrite Hx.
    + now rewrite orb_false_r.
  - unfold Set_has. rewrite existsb_app. simpl. now rewrite orb_false_r.
Qed.

Lemma Set_has_fold (f : string -> string) (keys init : list string) (y : string) :
  Set_has (fold_left (fun set key => Set_add set (f key)) keys init) y
  = Set_has init y || existsb (String.eqb y) (map f keys).
Proof.
  revert init. induction keys as [|k keys IH]; intros init; simpl.
  - now rewrite orb_false_r.
  - now rewrite IH, Set_has_add, orb_assoc.
Qed.

Lemma falsy_no_entries (v : JSValue) :
  truthy v = false -> Object_entries v = [].
Proof.
  destruct v as [| |b|n|s|items|props]; simpl; try reflexivity; try discriminate.
  intros H. apply negb_false_iff, String.eqb_eq in H. now subst s.
Qed.

Lemma existingSocials_has (person : JSValue) (y : string) :
  Set_has (existingSocials person) y
  = existsb (String.eqb y) (map slugify (knownKeys person)).
Proof.
  unfold existingSocials, knownKeys, Object_keys.
  destruct (truthy (getProp person "socials")) eqn:Ht.
  - now rewrite Set_has_fold.
  - now rewrite (falsy_no_entries _ Ht).
Qed.

Lemma existingSocials_known (person : JSValue) (key : string) :
  In key (knownKeys person) ->
  Set_has (existingSocials person) (slugify key) = true.
Proof.
  intros Hin. rewrite existingSocials_has. apply existsb_exists.
  exists (slugify key). split; [now apply in_map | apply String.eqb_refl].
Qed.

(** *** The loop *)

Lemma visitEntry_spec (existing : list string) (found : list FoundAccount)
      (entry : string * JSValue) :
  visitEntry existing found entry =
  if qualifies existing entry then
    if hasUsername entry then Normal (found ++ [candidateOf entry])%list
    else Throw (ReferenceError "searchUsername")
  else Normal found.
Proof.
  destruct entry as [siteName result].
  unfold visitEntry, qualifies, hasUsername, candidateOf, handleOf,
    searchUsername_in_processSearchResults. cbn [fst snd].
  destruct (truthy result); [|reflexivity].
  destruct (typeof_object result); [|reflexivity].
  destruct (strict_eq_string (getProp result "status") "Claimed"); [|reflexivity].
  destruct (truthy (getProp result "url_user")); [|reflexivity].
  destruct (Set_has existing (slugify siteName)); [reflexivity|].
  cbn. destruct (truthy (getProp result "username")); reflexivity.
Qed.

Lemma forEntries_spec (existing : list string) (entries : list (string * JSValue))
      (found : list FoundAccount) :
  forEntries existing found entries =
  if completes existing entries
  then Normal (found ++ map candidateOf (filter (qualifies existing) entries))%list
  else Throw (ReferenceError "searchUsername").
Proof.
  revert found. induction entries as [|entry rest IH]; intros found.
  - cbn. now rewrite app_nil_r.
  - cbn [forEntries completes forallb filter]. rewrite visitEntry_spec.
    destruct (qualifies existing entry); cbn.
    + destruct (hasUsername entry); cbn; [|reflexivity].
      rewrite IH. fold (completes existing rest).
      destruct (completes existing rest); [|reflexivity].
      now rewrite <- app_assoc.
    + rewrite IH. reflexivity.
Qed.

Lemma searchResults_report (results : JSValue) (found : list FoundAccount) (st : State) :
  searchResults (report results found st) = found.
Proof.
  unfold report.
  destruct (Nat.eqb (List.length found) 0); [|reflexivity].
  destruct (Z.ltb 0 _); reflexivity.
Qed.

(** What a run of [processSearchResults] that reaches the loop and ends
    normally has stored. *)
Lemma processSearchResults_normal (results : JSValue) (st st' : State) :
  truthy results = true -> truthy (person st) = true ->
  processSearchResults results st = Normal st' ->
  let found := map candidateOf
                 (filter (qualifies (existingSocials (person st)))
                         (Object_entries results)) in
  completes (existingSocials (person st)) (Object_entries results) = true
  /\ st' = report results found st.
Proof.
  intros Hr Hp. unfold processSearchResults. rewrite Hr, Hp. cbn [negb orb].
  rewrite forEntries_spec.
  destruct (completes _ _); cbn; [|discriminate].
  intros H. injection H as <-. split; reflexivity.
Qed.

(** C2.  Whenever reconciliation stores candidates, none of them has a
    platform key equal to the slug of a key of [person.socials]: the known
    keys are slugified before the test, so this holds for keys that are not
    canonical too. *)
Theorem C2_no_candidate_for_known_key
        (results : JSValue) (st st' : State) (c : FoundAccount) (key : string) :
  truthy results = true -> truthy (person st) = true ->
  processSearchResults results st = Normal st' ->
  In c (searchResults st') ->
  In key (knownKeys (person st)) ->
  platform c <> slugify key.
Proof.
  intros Hr Hp Hrun Hc Hkey.
  destruct (processSearchResults_normal results st st' Hr Hp Hrun) as [_ ->].
  rewrite searchResults_report in Hc.
  apply in_map_iff in Hc as [entry [<- Hentry]].
  apply filter_In in Hentry as [_ Hq].
  unfold qualifies in Hq. apply andb_true_iff in Hq as [_ Hnew].
  apply negb_true_iff in Hnew. cbn [platform candidateOf].
  intros Heq. rewrite Heq, (existingSocials_known _ _ Hkey) in Hnew.
  discriminate.
Qed.

Lemma C2_no_candidate_for_known_key_witness :
  platform (candidateOf ("Reddit", claimedAs "https://www.reddit.com/user/jdoe99" "jdoe99"))
  <> slugify "Git Hub".
Proof.
  apply (C2_no_candidate_for_known_key legacy_results legacy_state
           (reconciled legacy_results legacy_state)).
  - reflexivity.
  - reflexivity.
  - reflexivity.
  - vm_compute. left. reflexivity.
  - vm_compute. left. reflexivity.
Defined.

(** Every candidate that reconciliation stores comes from an entry of the
    result map: its key is the slug of the label, its display name the
    label, its URL the finding's [url_user] and its handle the finding's
    truthy [username]. *)
Lemma candidate_fields (results : JSValue) (st st' : State) (c : FoundAccount) :
  truthy results = true -> truthy (person st) = true ->
  processSearchResults results st = Normal st' ->
  In c (searchResults st') ->
  exists label finding,
    In (label, finding) (Object_entries results)
    /\ platform c = slugify label /\ displayName c = label
    /\ url c = getProp finding "url_user"
    /\ handle c = getProp finding "username"
    /\ truthy (handle c) = true.
Proof.
  intros Hr Hp Hrun Hc.
  destruct (processSearchResults_normal results st st' Hr Hp Hrun) as [Hall ->].
  rewrite searchResults_report in Hc.
  apply in_map_iff in Hc as [[label finding] [<- Hentry]].
  apply filter_In in Hentry as [Hin Hq].
  exists label, finding. repeat split; try assumption.
  unfold completes in Hall. rewrite forallb_forall in Hall.
  specialize (Hall _ Hin). rewrite Hq in Hall. exact Hall.
Qed.

(** When [processSearchResults] throws: exactly when it reaches the loop and
    some entry that it would push has no truthy [username]. *)
Lemma processSearchResults_throws_iff (results : JSValue) (st : State) (e : JSError) :
  processSearchResults results st = Throw e <->
  truthy results = true /\ truthy (person st) = true
  /\ completes (existingSocials (person st)) (Object_entries results) = false
  /\ e = ReferenceError "searchUsername".
Proof.
  unfold processSearchResults.
  destruct (truthy results), (truthy (person st)); cbn [negb orb];
    try (split; [discriminate | intros (H1 & H2 & _); discriminate]).
  rewrite forEntries_spec. destruct (completes _ _); cbn.
  - split; [discriminate | intros (_ & _ & H & _); discriminate].
  - split.
    + intros H. injection H as <-. repeat split.
    + intros (_ & _ & _ & ->). reflexivity.
Qed.

(** C1.  Reconciliation does throw.  With the person's accounts
    [{github: "jdoe"}] and the result map [mixed_results], whose second
    finding is Claimed with a URL and no [username], [processSearchResults]
    ends with [ReferenceError: searchUsername is not defined], and the
    candidate of the first finding is not stored. *)
Theorem C1_processSearchResults_throws :
  processSearchResults mixed_results mixed_state
  = Throw (ReferenceError "searchUsername")
  /\ searchResults (reconciled mixed_results mixed_state) = [].
Proof. split; reflexivity. Qed.

(** C7.  Scenario A: the result [{"GitHub": {status: "Claimed", url_user:
    "https://github.com/jdoe"}}] against a person without accounts.  The
    finding has no [username], the fallback [searchUsername] is unbound, and
    [processSearchResults] throws: no candidate with key [github] is stored,
    and the tracker that called it reports the error's message. *)
Theorem C7_scenario_A_throws :
  processSearchResults scenarioA_results scenarioA_state
  = Throw (ReferenceError "searchUsername")
  /\ exists st' log,
       pollSearchResults (completedAtOnce scenarioA_results) scenarioA_state
       = Some (st', log)
       /\ searchResults st' = []
       /\ searchError st' = JStr "searchUsername is not defined".
Proof.
  split; [reflexivity|].
  eexists. eexists. split; [vm_compute; reflexivity|].
  split; reflexivity.
Qed.

(** *** Counting the findings *)

Lemma count_split3 {A B : Type} (f : A -> B) (p : B -> bool) (q r t : A -> bool)
      (l : list A) :
  (forall a, Nat.b2n (p (f a)) = Nat.b2n (q a) + Nat.b2n (r a) + Nat.b2n (t a)) ->
  List.length (filter p (map f l))
  = List.length (filter q l) + List.length (filter r l) + List.length (filter t l).
Proof.
  intros Hpt. induction l as [|a l IH]; [reflexivity|].
  cbn [map filter]. specialize (Hpt a).
  destruct (p (f a)), (q a), (r a), (t a); cbn in Hpt; try discriminate;
    cbn [List.length]; lia.
Qed.

Lemma totalClaimed_split (person results : JSValue) :
  totalClaimed results
  = List.length (filter (qualifies (existingSocials person)) (Object_entries results))
    + skippedExisting person results + claimedWithoutUrl results.
Proof.
  unfold totalClaimed, skippedExisting, claimedWithoutUrl, Object_values.
  apply count_split3. intros [label finding].
  unfold qualifies, isClaimed. cbn [fst snd].
  destruct (truthy finding), (typeof_object finding),
    (strict_eq_string (getProp finding "status") "Claimed"),
    (truthy (getProp finding "url_user")),
    (Set_has (existingSocials person) (slugify label)); reflexivity.
Qed.

(** When reconciliation ends normally, the findings with status Claimed are
    the stored candidates, the findings skipped for a known key and the
    Claimed findings without a URL.  When no candidate is stored the message
    tells "no Claimed finding at all" from "Claimed findings, none of them
    new", and counts in the latter all Claimed findings. *)
Lemma reconciliation_counts (results : JSValue) (st st' : State) :
  truthy results = true -> truthy (person st) = true ->
  processSearchResults results st = Normal st' ->
  totalClaimed results
  = List.length (searchResults st') + skippedExisting (person st) results
    + claimedWithoutUrl results
  /\ (List.length (searchResults st') = 0 ->
      (totalClaimed results = 0 ->
       searchError st' = JStr "No social accounts found")
      /\ (0 < totalClaimed results ->
          searchError st'
          = JStr ("No new social accounts found ("
                  ++ string_of_Z (Z.of_nat (totalClaimed results))
                  ++ " platforms already added)")))
  /\ (forall n : string,
        "No social accounts found"
        <> "No new social accounts found (" ++ n ++ " platforms already added)").
Proof.
  intros Hr Hp Hrun.
  destruct (processSearchResults_normal results st st' Hr Hp Hrun) as [_ ->].
  rewrite searchResults_report, length_map.
  split; [apply totalClaimed_split|].
  split; [|intros n H; cbn in H; discriminate H].
  intros Hnone. unfold report. rewrite length_map, Hnone. cbn [Nat.eqb].
  rewrite Z.sub_0_r.
  split; intros Htotal.
  - rewrite Htotal. reflexivity.
  - destruct (Z.ltb_spec 0 (Z.of_nat (totalClaimed results))) as [_|Hle];
      [reflexivity | lia].
Qed.

(** The equation of the summary holds whenever every Claimed finding has a
    URL and reconciliation ends normally. *)
Lemma summary_equation (results : JSValue) (st st' : State) :
  truthy results = true -> truthy (person st) = true ->
  processSearchResults results st = Normal st' ->
  claimedWithoutUrl results = 0 ->
  totalClaimed results
  = List.length (searchResults st') + skippedExisting (person st) results.
Proof.
  intros Hr Hp Hrun Hurl.
  destruct (reconciliation_counts results st st' Hr Hp Hrun) as [Heq _].
  rewrite Heq, Hurl. lia.
Qed.

(** C6.  The equation of the summary does not hold for [urlless_results]
    against a person without accounts: the one finding has status Claimed
    and no URL, no candidate is stored and no finding is skipped for a known
    key, so that 1 = 0 + 0 would have to hold; the message counts the
    finding as a platform already added. *)
Theorem C6_claimed_without_url_miscounted :
  processSearchResults urlless_results scenarioA_state
  = Normal (reconciled urlless_results scenarioA_state)
  /\ knownKeys (person scenarioA_state) = []
  /\ totalClaimed urlless_results = 1
  /\ List.length (searchResults (reconciled urlless_results scenarioA_state)) = 0
  /\ skippedExisting (person scenarioA_state) urlless_results = 0
  /\ totalClaimed urlless_results
     <> List.length (searchResults (reconciled urlless_results scenarioA_state))
        + skippedExisting (person scenarioA_state) urlless_results
  /\ searchError (reconciled urlless_results scenarioA_state)
     = JStr "No new social accounts found (1 platforms already added)".
Proof.
  repeat split; try reflexivity. vm_compute. discriminate.
Qed.

(** C9.  Two labels with the same slug are one platform for the loop: the
    known-key test gives the same answer for both, and replacing one by the
    other in a result map changes nothing in the outcome but the display
    name of the candidate. *)
Theorem C9_same_slug_same_platform
        (l1 l2 : string) (person finding : JSValue)
        (before after : list (string * JSValue)) (found : list FoundAccount) :
  slugify l1 = slugify l2 ->
  Set_has (existingSocials person) (slugify l1)
  = Set_has (existingSocials person) (slugify l2)
  /\ qualifies (existingSocials person) (l1, finding)
     = qualifies (existingSocials person) (l2, finding)
  /\ eraseLabels (forEntries (existingSocials person) found
                    (before ++ (l1, finding) :: after))
     = eraseLabels (forEntries (existingSocials person) found
                      (before ++ (l2, finding) :: after)).
Proof.
  intros Hslug.
  assert (Hq : qualifies (existingSocials person) (l1, finding)
               = qualifies (existingSocials person) (l2, finding)).
  { unfold qualifies. cbn [fst snd]. now rewrite Hslug. }
  split; [now rewrite Hslug|]. split; [exact Hq|].
  rewrite !forEntries_spec.
  unfold completes. rewrite !forallb_app, !filter_app. cbn [forallb filter].
  rewrite Hq. unfold hasUsername at 1 3. cbn [snd].
  destruct (forallb _ before && _); [|reflexivity].
  cbn. f_equal. rewrite !map_app. f_equal. f_equal.
  destruct (qualifies (existingSocials person) (l2, finding)); [|reflexivity].
  cbn [map]. f_equal. unfold eraseLabel, candidateOf.
  cbn [platform url handle fst snd]. now rewrite Hslug.
Qed.

Lemma C9_same_slug_same_platform_witness :
  eraseLabels (forEntries (existingSocials (person legacy_state)) []
                 ([] ++ [("Git Hub", claimedAs "https://github.com/jdoe" "jdoe")]))
  = eraseLabels (forEntries (existingSocials (person legacy_state)) []
                   ([] ++ [(" git   hub ", claimedAs "https://github.com/jdoe" "jdoe")])).
Proof.
  apply (C9_same_slug_same_platform "Git Hub" " git   hub "). reflexivity.
Defined.

(** C10.  [slugify] is idempotent, its result has only characters of
    [a-z0-9_-], and a key made of such characters only is left unchanged, so
    that the set of known keys built from a registry of canonical keys holds
    exactly those keys. *)
Theorem C10_slugify_idempotent :
  (forall s : string, slugify (slugify s) = slugify s)
  /\ (forall s : string, allChars isSlugChar (slugify s) = true)
  /\ (forall k : string, allChars isSlugChar k = true -> slugify k = k)
  /\ (forall (person : JSValue) (y : string),
        (forall k, In k (knownKeys person) -> allChars isSlugChar k = true) ->
        Set_has (existingSocials person) y
        = existsb (String.eqb y) (knownKeys person)).
Proof.
  split; [exact slugify_idempotent|].
  split; [exact slugify_only_slugChars|].
  split; [exact slugify_canonical|].
  intros person y Hcanon. rewrite existingSocials_has. f_equal.
  rewrite <- (map_id (knownKeys person)) at 2.
  apply map_ext_in. intros k Hk. apply slugify_canonical, Hcanon, Hk.
Qed.

Lemma C10_slugify_idempotent_witness :
  slugify (slugify " My Cool Site! ") = slugify " My Cool Site! "
  /\ allChars isSlugChar (slugify "Git Hub") = true
  /\ (allChars isSlugChar "my_cool-site2" = true
      /\ slugify "my_cool-site2" = "my_cool-site2")
  /\ Set_has (existingSocials (person mixed_state)) "github" = true.
Proof.
  destruct C10_slugify_idempotent as [Hidem [Hout [Hcanon Hset]]].
  split; [apply Hidem|]. split; [apply Hout|].
  split; [split; [reflexivity | apply Hcanon; reflexivity]|].
  rewrite Hset; [reflexivity|].
  intros k [<-|[]]. reflexivity.
Defined.

(* ================================================================== *)
(** * Properties of the tracker *)

Lemma continues_not_terminal (jobStatus : JobStatus) :
  continues (Resolved jobStatus) = true ->
  String.eqb (status jobStatus) "completed" = false
  /\ String.eqb (status jobStatus) "failed" = false.
Proof.
  cbn. intros H. apply orb_true_iff in H as [H|H];
    apply String.eqb_eq in H; rewrite H; split; reflexivity.
Qed.

Lemma searchJobId_noteProgress (jobStatus : JobStatus) (st : State) :
  searchJobId (noteProgress jobStatus st) = searchJobId st.
Proof. unfold noteProgress. now destruct (String.eqb _ _). Qed.

Lemma searchJobId_afterPolls (backend : Backend) (n a : nat) (st : State) :
  searchJobId (afterPolls backend a n st) = searchJobId st.
Proof.
  revert a st. induction n as [|n IH]; intros a st; cbn; [reflexivity|].
  destruct (backend a); [|reflexivity].
  now rewrite IH, searchJobId_noteProgress.
Qed.

(** A run of [poll] that sets a timer. *)
Lemma poll_continue (fuel budget : nat) (backend : Backend) (a : nat)
      (st : State) (log : list Effect) (jobStatus : JobStatus) :
  backend a = Resolved jobStatus ->
  continues (Resolved jobStatus) = true ->
  S a < budget ->
  poll (S fuel) budget backend a st log
  = poll fuel budget backend (S a) (noteProgress jobStatus st)
         (log ++ [GetStatus (searchJobId st); SetTimeout 5000]).
Proof.
  intros Hb Hc Hlt. cbn [poll]. rewrite Hb.
  destruct (continues_not_terminal _ Hc) as [-> ->].
  cbn in Hc. rewrite Hc, andb_true_r.
  apply Nat.ltb_lt in Hlt. rewrite Hlt.
  unfold noteProgress. rewrite <- app_assoc. reflexivity.
Qed.

(** A run of [poll] that sets none. *)
Lemma poll_stop (fuel budget : nat) (backend : Backend) (a : nat)
      (st : State) (log : list Effect) :
  continues (backend a) = false \/ budget <= S a ->
  poll (S fuel) budget backend a st log
  = Some (fst (lastPoll budget (backend a) a st),
          (log ++ GetStatus (searchJobId st) :: snd (lastPoll budget (backend a) a st))%list).
Proof.
  intros Hstop. cbn [poll]. unfold lastPoll.
  destruct (backend a) as [jobStatus|err]; [|reflexivity].
  destruct (String.eqb (status jobStatus) "completed").
  { destruct (processSearchResults _ _); cbn [fst snd];
      [rewrite <- app_assoc|]; reflexivity. }
  destruct (String.eqb (status jobStatus) "failed").
  { cbn [fst snd]. rewrite <- app_assoc. reflexivity. }
  assert (Hno : (S a <? budget)%nat
                && (String.eqb (status jobStatus) "pending"
                    || String.eqb (status jobStatus) "running") = false).
  { destruct Hstop as [Hc|Hle].
    - cbn in Hc. rewrite Hc. apply andb_false_r.
    - apply Nat.ltb_ge in Hle. rewrite Hle. reflexivity. }
  rewrite Hno. unfold noteProgress.
  destruct (budget <=? S a)%nat; reflexivity.
Qed.

(** [n] runs that set a timer, one after the other. *)
Lemma poll_skip (n : nat) :
  forall (fuel budget : nat) (backend : Backend) (a : nat) (st : State)
         (log : list Effect),
    (forall j, j < n -> continues (backend (a + j)) = true) ->
    n = 0 \/ a + n < budget ->
    poll (n + fuel) budget backend a st log
    = poll fuel budget backend (a + n) (afterPolls backend a n st)
           (log ++ pollLog (searchJobId st) n).
Proof.
  induction n as [|n IH]; intros fuel budget backend a st log Hcont Hlt.
  - cbn [pollLog afterPolls]. now rewrite Nat.add_0_r, app_nil_r.
  - destruct Hlt as [Hz|Hlt]; [discriminate|].
    pose proof (Hcont 0 (Nat.lt_0_succ n)) as H0. rewrite Nat.add_0_r in H0.
    destruct (backend a) as [jobStatus|err] eqn:Hb; [|discriminate].
    cbn [Nat.add]. rewrite (poll_continue _ _ _ _ _ _ jobStatus Hb H0) by lia.
    rewrite IH.
    + cbn [afterPolls pollLog]. rewrite Hb, searchJobId_noteProgress.
      rewrite <- app_assoc. replace (a + S n) with (S a + n) by lia. reflexivity.
    + intros j Hj. replace (S a + j) with (a + S j) by lia. apply Hcont. lia.
    + right. lia.
Qed.

(** Every run of the tracker is some number of runs of [poll] that set a
    timer, followed by one that sets none. *)
Lemma poll_shape (fuel : nat) :
  forall (budget : nat) (backend : Backend) (a : nat) (st : State)
         (log : list Effect) (st' : State) (log' : list Effect),
    poll fuel budget backend a st log = Some (st', log') ->
    exists n,
      (forall j, j < n -> continues (backend (a + j)) = true)
      /\ (n = 0 \/ a + n < budget)
      /\ (continues (backend (a + n)) = false \/ budget <= S (a + n))
      /\ st' = fst (lastPoll budget (backend (a + n)) (a + n)
                      (afterPolls backend a n st))
      /\ log' = (log ++ pollLog (searchJobId st) n
                   ++ GetStatus (searchJobId st)
                   :: snd (lastPoll budget (backend (a + n)) (a + n)
                             (afterPolls backend a n st)))%list.
Proof.
  induction fuel as [|fuel IH]; intros budget backend a st log st' log' Hrun;
    [discriminate|].
  destruct (continues (backend a)) eqn:Hc.
  - destruct (Nat.lt_ge_cases (S a) budget) as [Hlt|Hge].
    + destruct (backend a) as [jobStatus|err] eqn:Hb; [|discriminate].
      rewrite (poll_continue _ _ _ _ _ _ jobStatus Hb Hc Hlt) in Hrun.
      apply IH in Hrun as (n & Hcont & Hn & Hstop & Hst & Hlog).
      exists (S n). replace (a + S n) with (S a + n) by lia.
      cbn [afterPolls pollLog]. rewrite Hb.
      rewrite searchJobId_noteProgress, <- app_assoc in Hlog.
      repeat split; try assumption.
      * intros [|j] Hj; [now rewrite Nat.add_0_r, Hb|].
        replace (a + S j) with (S a + j) by lia. apply Hcont. lia.
      * right. destruct Hn as [->|Hn]; lia.
    + rewrite poll_stop in Hrun by (right; exact Hge).
      injection Hrun as <- <-. exists 0. rewrite Nat.add_0_r.
      repeat split; [intros j Hj; lia | now left | now right].
  - rewrite poll_stop in Hrun by (left; exact Hc).
    injection Hrun as <- <-. exists 0. rewrite Nat.add_0_r.
    repeat split; [intros j Hj; lia | now left | now left].
Qed.

(** With fuel for [budget] runs the tracker comes to an end. *)
Lemma poll_total (fuel : nat) :
  forall (budget : nat) (backend : Backend) (a : nat) (st : State)
         (log : list Effect),
    1 <= fuel -> budget <= fuel + a ->
    exists r, poll fuel budget backend a st log = Some r.
Proof.
  induction fuel as [|fuel IH]; intros budget backend a st log H1 Hb; [lia|].
  destruct (continues (backend a)) eqn:Hc.
  - destruct (Nat.lt_ge_cases (S a) budget) as [Hlt|Hge].
    + destruct (backend a) as [jobStatus|err] eqn:Hba; [|discriminate].
      rewrite (poll_continue _ _ _ _ _ _ jobStatus Hba Hc Hlt).
      apply IH; lia.
    + rewrite poll_stop by (right; exact Hge). eauto.
  - rewrite poll_stop by (left; exact Hc). eauto.
Qed.

Lemma pollSearchResults_total (budget : nat) (backend : Backend) (st : State) :
  exists r, pollWithBudget budget backend st = Some r.
Proof.
  unfold pollWithBudget. destruct (searchJobId st) as [jobId|]; [|eauto].
  destruct (String.eqb jobId ""); [eauto|]. apply poll_total; lia.
Qed.

(** *** Counting in the log *)

Lemma pollsIssued_app (l1 l2 : list Effect) :
  pollsIssued (l1 ++ l2) = pollsIssued l1 + pollsIssued l2.
Proof. unfold pollsIssued. now rewrite filter_app, length_app. Qed.

Lemma pollsIssued_pollLog (jobId : option string) (n : nat) :
  pollsIssued (pollLog jobId n) = n.
Proof.
  induction n as [|n IH]; [reflexivity|].
  unfold pollsIssued in *. cbn. now rewrite IH.
Qed.

Lemma delays_app (l1 l2 : list Effect) :
  delays (l1 ++ l2) = (delays l1 ++ delays l2)%list.
Proof.
  induction l1 as [|e l1 IH]; [reflexivity|].
  destruct e; cbn; now rewrite IH.
Qed.

Lemma delays_pollLog (jobId : option string) (n : nat) :
  delays (pollLog jobId n) = repeat 5000%Z n.
Proof. induction n as [|n IH]; [reflexivity|]. cbn. now rewrite IH. Qed.

Lemma lastPoll_effects (budget : nat) (resp : PollResponse) (a : nat) (st : State) :
  snd (lastPoll budget resp a st) = []
  \/ snd (lastPoll budget resp a st) = [LoadRecentJobs].
Proof.
  unfold lastPoll. destruct resp as [jobStatus|err]; [|now left].
  destruct (String.eqb (status jobStatus) "completed").
  { destruct (processSearchResults _ _); [now right | now left]. }
  destruct (String.eqb (status jobStatus) "failed"); [now right|].
  destruct (budget <=? S a)%nat; now left.
Qed.

(** The runs of [pollWithBudget]: nothing at all without a job identifier,
    and otherwise [n] polls followed by a timer and a last poll. *)
Lemma pollWithBudget_shape (budget : nat) (backend : Backend) (st st' : State)
      (log : list Effect) :
  pollWithBudget budget backend st = Some (st', log) ->
  (st' = st /\ log = [])
  \/ exists n last,
       (forall j, j < n -> continues (backend j) = true)
       /\ (n = 0 \/ n < budget)
       /\ (continues (backend n) = false \/ budget <= S n)
       /\ last = lastPoll budget (backend n) n
                   (afterPolls backend 0 n (set_searchJobPolling true st))
       /\ st' = fst last
       /\ log = (pollLog (searchJobId st) n
                   ++ GetStatus (searchJobId st) :: snd last)%list.
Proof.
  unfold pollWithBudget.
  destruct (searchJobId st) as [jobId|] eqn:Hid;
    [|intros H; injection H as <- <-; now left].
  destruct (String.eqb jobId "");
    [intros H; injection H as <- <-; now left|].
  intros Hrun. apply poll_shape in Hrun as (n & Hcont & Hn & Hstop & Hst & Hlog).
  right. exists n. eexists. cbn [Nat.add] in *.
  change (searchJobId (set_searchJobPolling true st)) with (searchJobId st) in Hlog.
  rewrite Hid in Hlog. cbn [app] in Hlog.
  repeat split; try eassumption.
Qed.

Lemma pollWithBudget_counts (budget : nat) (backend : Backend) (st st' : State)
      (log : list Effect) :
  pollWithBudget budget backend st = Some (st', log) ->
  log = []
  \/ exists n,
       pollsIssued log = S n /\ delays log = repeat 5000%Z n
       /\ (forall j, j < n -> continues (backend j) = true)
       /\ (n = 0 \/ n < budget)
       /\ st' = fst (lastPoll budget (backend n) n
                       (afterPolls backend 0 n (set_searchJobPolling true st))).
Proof.
  intros Hrun.
  apply pollWithBudget_shape in Hrun
    as [[_ ->]|(n & last & Hcont & Hn & _ & Hlast & Hst & ->)]; [now left|].
  right. exists n.
  rewrite pollsIssued_app, pollsIssued_pollLog, delays_app, delays_pollLog.
  assert (Hsnd : snd last = [] \/ snd last = [LoadRecentJobs])
    by (rewrite Hlast; apply lastPoll_effects).
  rewrite <- Hlast.
  repeat split; try assumption.
  - destruct Hsnd as [-> | ->]; cbn; lia.
  - destruct Hsnd as [-> | ->]; cbn; now rewrite app_nil_r.
Qed.

(** [n] polls that see the job pending or running, and then a last one. *)
Lemma pollWithBudget_after (budget : nat) (backend : Backend) (st : State)
      (jobId : string) (n : nat) :
  searchJobId st = Some jobId -> jobId <> "" ->
  (forall j, j < n -> continues (backend j) = true) ->
  n = 0 \/ n < budget ->
  continues (backend n) = false \/ budget <= S n ->
  pollWithBudget budget backend st
  = Some (fst (lastPoll budget (backend n) n
                 (afterPolls backend 0 n (set_searchJobPolling true st))),
          (pollLog (Some jobId) n
             ++ GetStatus (Some jobId)
             :: snd (lastPoll budget (backend n) n
                       (afterPolls backend 0 n (set_searchJobPolling true st))))%list).
Proof.
  intros Hid Hne Hcont Hn Hstop. unfold pollWithBudget. rewrite Hid.
  apply String.eqb_neq in Hne. rewrite Hne.
  replace (S budget) with (n + S (budget - n)) by lia.
  rewrite poll_skip by (cbn [Nat.add]; assumption).
  cbn [Nat.add]. rewrite poll_stop by assumption.
  rewrite searchJobId_afterPolls.
  change (searchJobId (set_searchJobPolling true st)) with (searchJobId st).
  rewrite Hid. reflexivity.
Qed.

(** C5.  The tracker always comes to an end; it polls at most 60 times,
    every timer it sets is of 5000 ms (5 s) and is followed by one poll, and
    it issues no poll after one that saw the job completed or failed.  With
    a backend that answers running three times and then completed, it polls
    exactly four times with three timers in between, and is stopped after
    the fourth. *)
Theorem C5_polling_policy :
  (forall (backend : Backend) (st : State),
      exists r, pollSearchResults backend st = Some r)
  /\ (forall (backend : Backend) (st st' : State) (log : list Effect),
        pollSearchResults backend st = Some (st', log) ->
        pollsIssued log <= 60
        /\ Forall (fun ms => ms = 5000%Z) (delays log)
        /\ List.length (delays log) = pollsIssued log - 1
        /\ (forall k jobStatus,
              backend k = Resolved jobStatus ->
              isTerminal (status jobStatus) = true ->
              pollsIssued log <= S k))
  /\ (forall (res : JSValue) (st : State) (jobId : string),
        searchJobId st = Some jobId -> jobId <> "" ->
        exists st' log,
          pollSearchResults (runningThenCompleted 3 res) st = Some (st', log)
          /\ pollsIssued log = 4
          /\ delays log = [5000; 5000; 5000]%Z
          /\ searchingAccounts st' = false
          /\ searchJobPolling st' = false).
Proof.
  split; [intros backend st; apply pollSearchResults_total|].
  split.
  - intros backend st st' log Hrun.
    apply pollWithBudget_counts in Hrun
      as [->|(n & Hpolls & Hdelays & Hcont & Hn & _)].
    { cbn. split; [lia|]. split; [constructor|]. split; [reflexivity|].
      intros; lia. }
    rewrite Hpolls, Hdelays. unfold maxAttempts in Hn.
    repeat split.
    + lia.
    + apply Forall_forall. intros ms Hms. now apply repeat_spec in Hms.
    + rewrite repeat_length. lia.
    + intros k jobStatus Hk Hterm.
      destruct (Nat.lt_ge_cases k n) as [Hlt|Hge]; [|lia].
      specialize (Hcont k Hlt). rewrite Hk in Hcont.
      destruct (continues_not_terminal _ Hcont) as [Hc Hf].
      unfold isTerminal in Hterm. rewrite Hc, Hf in Hterm. discriminate.
  - intros res st jobId Hid Hne. unfold pollSearchResults.
    rewrite (pollWithBudget_after maxAttempts _ st jobId 3 Hid Hne).
    + eexists. eexists. split; [reflexivity|].
      unfold lastPoll. cbn [runningThenCompleted Nat.ltb Nat.leb answer status results].
      cbn [String.eqb Ascii.eqb Bool.eqb andb].
      destruct (processSearchResults res _) as [st''|err];
        cbn [fst snd]; repeat split.
    + intros [|[|[|j]]] Hj; try reflexivity. lia.
    + right. unfold maxAttempts. lia.
    + left. reflexivity.
Qed.

Lemma C5_polling_policy_witness :
  pollsIssued (snd (tracked maxAttempts (runningThenCompleted 3 legacy_results)
                      legacy_state)) <= 60
  /\ (exists st' log,
        pollSearchResults (runningThenCompleted 3 legacy_results) legacy_state
        = Some (st', log)
        /\ pollsIssued log = 4).
Proof.
  destruct C5_polling_policy as [_ [Hany Hscenario]].
  split.
  - apply (Hany (runningThenCompleted 3 legacy_results) legacy_state
                (fst (tracked maxAttempts (runningThenCompleted 3 legacy_results)
                        legacy_state))).
    vm_compute. reflexivity.
  - destruct (Hscenario legacy_results legacy_state "job-2") as (st' & log & H & Hp & _).
    + reflexivity.
    + discriminate.
    + exists st', log. split; assumption.
Defined.

(** *** The ends of a run: failed, timed out, rejected *)

(** A run whose last poll saw the job failed. *)
Lemma failed_run_report (budget : nat) (backend : Backend) (st st' : State)
      (log : list Effect) (k : nat) (jobStatus : JobStatus) :
  pollWithBudget budget backend st = Some (st', log) ->
  pollsIssued log = S k ->
  backend k = Resolved jobStatus ->
  status jobStatus = "failed" ->
  searchJobStatus st' = Some "Status: failed"
  /\ searchError st' = or_else (error jobStatus) (JStr "Search failed").
Proof.
  intros Hrun Hpolls Hk Hfailed.
  apply pollWithBudget_counts in Hrun
    as [->|(n & Hn & _ & _ & _ & ->)]; [discriminate|].
  rewrite Hn in Hpolls. injection Hpolls as ->.
  rewrite Hk. unfold lastPoll. rewrite Hfailed. cbn. split; reflexivity.
Qed.

(** A run in which every poll of the budget saw the job pending or
    running. *)
Lemma timed_out_run (budget : nat) (backend : Backend) (st : State) (jobId : string) :
  1 <= budget -> searchJobId st = Some jobId -> jobId <> "" ->
  (forall k, k < budget -> continues (backend k) = true) ->
  exists jobStatus,
    backend (budget - 1) = Resolved jobStatus
    /\ continues (Resolved jobStatus) = true
    /\ pollWithBudget budget backend st
       = Some (onTimedOut
                 (noteProgress jobStatus
                    (afterPolls backend 0 (budget - 1)
                       (set_searchJobPolling true st))),
               (pollLog (Some jobId) (budget - 1) ++ [GetStatus (Some jobId)])%list).
Proof.
  intros Hb Hid Hne Hcont.
  pose proof (Hcont (budget - 1) ltac:(lia)) as Hlast.
  destruct (backend (budget - 1)) as [jobStatus|err] eqn:Hresp; [|discriminate].
  exists jobStatus. split; [reflexivity|]. split; [exact Hlast|].
  rewrite (pollWithBudget_after budget backend st jobId (budget - 1) Hid Hne).
  - rewrite Hresp. unfold lastPoll.
    destruct (continues_not_terminal _ Hlast) as [-> ->].
    assert (Hle : (budget <=? S (budget - 1))%nat = true)
      by (apply Nat.leb_le; lia).
    rewrite Hle. reflexivity.
  - intros j Hj. apply Hcont. lia.
  - right. lia.
  - right. lia.
Qed.

Lemma noteProgress_not_failed (jobStatus : JobStatus) (st : State) :
  continues (Resolved jobStatus) = true ->
  searchJobStatus (noteProgress jobStatus st) <> Some "Status: failed".
Proof.
  intros Hc. unfold noteProgress. cbn in Hc.
  apply orb_true_iff in Hc as [H|H]; apply String.eqb_eq in H; rewrite H;
    cbn; discriminate.
Qed.

Lemma pollLog_reads_only (jobId : option string) (n : nat) :
  Forall (fun e => e = GetStatus jobId \/ e = SetTimeout 5000) (pollLog jobId n).
Proof.
  induction n as [|n IH]; cbn; [constructor|].
  constructor; [now left|]. constructor; [now right | exact IH].
Qed.

(** C8.  When every poll of the budget has seen the job pending or running,
    the tracker stops after exactly that many polls with the message
    "Search timed out - check results later".  All it did to the job was to
    read its status; and the state it leaves differs from the state of any
    run that ended on a failed job, which shows "Status: failed".  With a
    budget of 2 and a backend that is pending for ever this happens after
    exactly two polls. *)
Theorem C8_timed_out_after_budget :
  (forall (budget : nat) (backend : Backend) (st : State) (jobId : string),
      1 <= budget -> searchJobId st = Some jobId -> jobId <> "" ->
      (forall k, k < budget -> continues (backend k) = true) ->
      exists st' log,
        pollWithBudget budget backend st = Some (st', log)
        /\ pollsIssued log = budget
        /\ searchError st' = JStr "Search timed out - check results later"
        /\ searchingAccounts st' = false
        /\ searchJobPolling st' = false
        /\ Forall (fun e => e = GetStatus (Some jobId) \/ e = SetTimeout 5000) log
        /\ (forall budget2 backend2 st2 stF logF k jobStatus,
              pollWithBudget budget2 backend2 st2 = Some (stF, logF) ->
              pollsIssued logF = S k ->
              backend2 k = Resolved jobStatus ->
              status jobStatus = "failed" ->
              searchJobStatus stF = Some "Status: failed"
              /\ searchJobStatus st' <> searchJobStatus stF
              /\ st' <> stF))
  /\ (forall (st : State) (jobId : string),
        searchJobId st = Some jobId -> jobId <> "" ->
        exists st',
          pollWithBudget 2 alwaysPending st
          = Some (st', [GetStatus (Some jobId); SetTimeout 5000;
                        GetStatus (Some jobId)])
          /\ searchError st' = JStr "Search timed out - check results later"
          /\ searchJobStatus st' = Some "Status: pending").
Proof.
  split.
  - intros budget backend st jobId Hb Hid Hne Hcont.
    destruct (timed_out_run budget backend st jobId Hb Hid Hne Hcont)
      as (jobStatus & _ & Hlast & Hrun).
    eexists. eexists. split; [exact Hrun|].
    split; [rewrite pollsIssued_app, pollsIssued_pollLog; cbn; lia|].
    split; [reflexivity|]. split; [reflexivity|]. split; [reflexivity|].
    split.
    { apply Forall_app. split; [apply pollLog_reads_only|].
      constructor; [now left | constructor]. }
    intros budget2 backend2 st2 stF logF k js2 HrunF Hpolls Hk Hfailed.
    destruct (failed_run_report _ _ _ _ _ _ _ HrunF Hpolls Hk Hfailed) as [HF _].
    assert (Hdiff : searchJobStatus
                      (onTimedOut
                         (noteProgress jobStatus
                            (afterPolls backend 0 (budget - 1)
                               (set_searchJobPolling true st))))
                    <> searchJobStatus stF).
    { rewrite HF. change (searchJobStatus (onTimedOut ?s)) with (searchJobStatus s).
      now apply noteProgress_not_failed. }
    split; [exact HF|]. split; [exact Hdiff|].
    intros Heq. apply Hdiff. now rewrite Heq.
  - intros st jobId Hid Hne.
    destruct (timed_out_run 2 alwaysPending st jobId) as (jobStatus & Hresp & _ & Hrun);
      [lia | exact Hid | exact Hne | reflexivity|].
    injection Hresp as <-.
    eexists. split; [exact Hrun|]. split; reflexivity.
Qed.

Lemma C8_timed_out_after_budget_witness :
  exists st' log,
    pollWithBudget 2 alwaysPending scenarioA_state = Some (st', log)
    /\ pollsIssued log = 2
    /\ searchError st' = JStr "Search timed out - check results later".
Proof.
  destruct C8_timed_out_after_budget as [Hgeneral _].
  destruct (Hgeneral 2 alwaysPending scenarioA_state "job-1")
    as (st' & log & Hrun & Hpolls & Herr & _).
  - lia.
  - reflexivity.
  - discriminate.
  - reflexivity.
  - exists st', log. repeat split; assumption.
Defined.

(** C3.  A rejected poll is not retried: here the first call is rejected and
    the job is completed by the second one, which the tracker never makes.
    It has polled once, set no timer, and shows the error at once. *)
Lemma C3_rejected_poll_counterexample :
  pollSearchResults (errorThenCompleted legacy_results) legacy_state
  = Some (tracked maxAttempts (errorThenCompleted legacy_results) legacy_state)
  /\ pollsIssued (snd (tracked maxAttempts (errorThenCompleted legacy_results)
                         legacy_state)) = 1
  /\ ~ 2 <= pollsIssued (snd (tracked maxAttempts (errorThenCompleted legacy_results)
                                legacy_state))
  /\ delays (snd (tracked maxAttempts (errorThenCompleted legacy_results)
                    legacy_state)) = []
  /\ searchError (fst (tracked maxAttempts (errorThenCompleted legacy_results)
                         legacy_state)) = JStr "Service Unavailable"
  /\ searchJobPolling (fst (tracked maxAttempts (errorThenCompleted legacy_results)
                              legacy_state)) = false.
Proof.
  repeat split; try (vm_compute; reflexivity).
  vm_compute. lia.
Qed.

(** C3.  A rejected poll ends the tracking: after [k] polls that saw
    the job pending or running, the rejected one is the last, no timer is
    set after it, and its message (or "Failed to check search status" when
    the message is empty) is shown at once, with the search marked as no
    longer running. *)
Theorem C3_rejected_poll_ends_tracking
        (budget : nat) (backend : Backend) (st : State) (jobId : string)
        (k : nat) (err : JSError) :
  searchJobId st = Some jobId -> jobId <> "" ->
  (forall j, j < k -> continues (backend j) = true) ->
  k = 0 \/ k < budget ->
  backend k = Rejected err ->
  exists st' log,
    pollWithBudget budget backend st = Some (st', log)
    /\ pollsIssued log = S k
    /\ List.length (delays log) = k
    /\ log = (pollLog (Some jobId) k ++ [GetStatus (Some jobId)])%list
    /\ searchError st'
       = or_else (JStr (message err)) (JStr "Failed to check search status")
    /\ searchingAccounts st' = false
    /\ searchJobPolling st' = false.
Proof.
  intros Hid Hne Hcont Hk Hrej.
  eexists. eexists.
  split.
  { apply (pollWithBudget_after budget backend st jobId k Hid Hne Hcont Hk).
    left. now rewrite Hrej. }
  rewrite Hrej. cbn [lastPoll fst snd].
  rewrite pollsIssued_app, pollsIssued_pollLog, delays_app, delays_pollLog,
    length_app, repeat_length.
  repeat split; cbn; lia.
Qed.

Lemma C3_rejected_poll_ends_tracking_witness :
  exists st' log,
    pollWithBudget maxAttempts (pendingErrorCompleted legacy_results) legacy_state
    = Some (st', log)
    /\ pollsIssued log = 2
    /\ searchError st' = JStr "Failed to check search status".
Proof.
  destruct (C3_rejected_poll_ends_tracking maxAttempts
              (pendingErrorCompleted legacy_results) legacy_state "job-2" 1 (Error ""))
    as (st' & log & Hrun & Hpolls & _ & _ & Herr & _).
  - reflexivity.
  - discriminate.
  - intros [|j] Hj; [reflexivity | lia].
  - right. unfold maxAttempts. lia.
  - reflexivity.
  - exists st', log. repeat split; assumption.
Defined.

(* ================================================================== *)
(** * More on the key normaliser *)

Lemma whiteSpace_lower (c : ascii) :
  isWhiteSpace (toLowerChar c) = isWhiteSpace c.
Proof.
  destruct c as [[] [] [] [] [] [] [] []]; vm_compute; reflexivity.
Qed.

Lemma toLowerChar_idempotent (c : ascii) :
  toLowerChar (toLowerChar c) = toLowerChar c.
Proof.
  destruct c as [[] [] [] [] [] [] [] []]; vm_compute; reflexivity.
Qed.

Lemma toLowerCase_idempotent (s : string) :
  toLowerCase (toLowerCase s) = toLowerCase s.
Proof.
  induction s as [|c r IH]; cbn; [reflexivity|].
  now rewrite toLowerChar_idempotent, IH.
Qed.

Lemma toLowerCase_app (a b : string) :
  toLowerCase (a ++ b) = toLowerCase a ++ toLowerCase b.
Proof. induction a as [|c r IH]; cbn; [reflexivity|]. now rewrite IH. Qed.

Lemma trimStart_toLowerCase (s : string) :
  trimStart (toLowerCase s) = toLowerCase (trimStart s).
Proof.
  induction s as [|c r IH]; cbn; [reflexivity|].
  rewrite whiteSpace_lower. now destruct (isWhiteSpace c).
Qed.

Lemma trimEnd_toLowerCase (s : string) :
  trimEnd (toLowerCase s) = toLowerCase (trimEnd s).
Proof.
  induction s as [|c r IH]; cbn; [reflexivity|].
  rewrite IH, whiteSpace_lower.
  destruct (trimEnd r); cbn; [now destruct (isWhiteSpace c) | reflexivity].
Qed.

Lemma slugify_toLowerCase (s : string) : slugify (toLowerCase s) = slugify s.
Proof.
  unfold slugify, trim.
  now rewrite trimStart_toLowerCase, trimEnd_toLowerCase, toLowerCase_idempotent.
Qed.

(** X1.  [slugify] does not see the case of letters: two labels with the same
    lower-case form have the same slug. *)
Theorem slugify_ignores_case (a b : string) :
  toLowerCase a = toLowerCase b -> slugify a = slugify b.
Proof.
  intros H. now rewrite <- (slugify_toLowerCase a), H, slugify_toLowerCase.
Qed.

Lemma slugify_ignores_case_witness : slugify "GitHub" = slugify "GITHUB".
Proof. apply slugify_ignores_case. reflexivity. Defined.

(** *** Whitespace around a label *)

Lemma trimStart_whiteSpace (w s : string) :
  allChars isWhiteSpace w = true -> trimStart (w ++ s) = trimStart s.
Proof.
  induction w as [|c r IH]; cbn; [reflexivity|].
  intros H. apply andb_true_iff in H as [Hc Hr]. now rewrite Hc, IH.
Qed.

Lemma trimStart_all_whiteSpace (w : string) :
  allChars isWhiteSpace w = true -> trimStart w = "".
Proof.
  induction w as [|c r IH]; cbn; [reflexivity|].
  intros H. apply andb_true_iff in H as [Hc Hr]. now rewrite Hc, IH.
Qed.

Lemma trimEnd_all_whiteSpace (w : string) :
  allChars isWhiteSpace w = true -> trimEnd w = "".
Proof.
  induction w as [|c r IH]; cbn; [reflexivity|].
  intros H. apply andb_true_iff in H as [Hc Hr]. now rewrite IH, Hc.
Qed.

Lemma trimEnd_whiteSpace (s w : string) :
  allChars isWhiteSpace w = true -> trimEnd (s ++ w) = trimEnd s.
Proof.
  intros Hw. induction s as [|c r IH]; cbn.
  - now apply trimEnd_all_whiteSpace.
  - now rewrite IH.
Qed.

Lemma trim_whiteSpace_after (s w : string) :
  allChars isWhiteSpace w = true -> trim (s ++ w) = trim s.
Proof.
  intros Hw. unfold trim. induction s as [|c r IH]; cbn.
  - now rewrite trimStart_all_whiteSpace.
  - destruct (isWhiteSpace c); [exact IH|].
    change (String c (r ++ w)) with (String c r ++ w).
    now apply trimEnd_whiteSpace.
Qed.

(** X2.  [slugify] does not see whitespace around a label. *)
Theorem slugify_ignores_surrounding_whitespace (before s after : string) :
  allChars isWhiteSpace before = true ->
  allChars isWhiteSpace after = true ->
  slugify (before ++ s ++ after) = slugify s.
Proof.
  intros Hb Ha. unfold slugify.
  replace (trim (before ++ s ++ after)) with (trim s); [reflexivity|].
  rewrite <- (trim_whiteSpace_after s after Ha).
  unfold trim. now rewrite (trimStart_whiteSpace before _ Hb).
Qed.

Lemma slugify_ignores_surrounding_whitespace_witness :
  slugify ("  " ++ "Stack Overflow" ++ " ") = slugify "Stack Overflow".
Proof. apply slugify_ignores_surrounding_whitespace; reflexivity. Defined.

(** *** The length of a slug *)

Lemma length_trimStart (s : string) : String.length (trimStart s) <= String.length s.
Proof.
  induction s as [|c r IH]; cbn; [lia|].
  destruct (isWhiteSpace c); cbn; lia.
Qed.

Lemma length_trimEnd (s : string) : String.length (trimEnd s) <= String.length s.
Proof.
  induction s as [|c r IH]; cbn; [lia|].
  destruct (trimEnd r); [destruct (isWhiteSpace c)|]; cbn in *; lia.
Qed.

Lemma length_toLowerCase (s : string) :
  String.length (toLowerCase s) = String.length s.
Proof. induction s as [|c r IH]; cbn; congruence. Qed.

Lemma length_replaceRuns (b : bool) (s : string) :
  String.length (replaceRuns isWhiteSpace "_" b s) <= String.length s.
Proof.
  revert b. induction s as [|c r IH]; intros b; cbn; [lia|].
  destruct (isWhiteSpace c); [destruct b|]; cbn;
    [specialize (IH true) | specialize (IH true) | specialize (IH false)]; lia.
Qed.

Lemma length_replaceEach (s : string) :
  String.length (replaceEach (fun c => negb (isSlugChar c)) "" s) <= String.length s.
Proof.
  induction s as [|c r IH]; cbn; [lia|].
  destruct (isSlugChar c); cbn; lia.
Qed.

(** X3.  A slug is never longer than the label it is made from. *)
Theorem slugify_length (s : string) :
  String.length (slugify s) <= String.length s.
Proof.
  unfold slugify, trim.
  pose proof (length_replaceEach
                (replaceRuns isWhiteSpace "_" false (toLowerCase (trimEnd (trimStart s))))).
  pose proof (length_replaceRuns false (toLowerCase (trimEnd (trimStart s)))).
  pose proof (length_toLowerCase (trimEnd (trimStart s))).
  pose proof (length_trimEnd (trimStart s)).
  pose proof (length_trimStart s).
  lia.
Qed.

(** *** Words and the whitespace between them *)

Lemma string_app_assoc (a b c : string) : (a ++ b) ++ c = a ++ b ++ c.
Proof. induction a as [|x a IH]; cbn; congruence. Qed.

Lemma trimEnd_clean (s : string) :
  allChars (fun c => negb (isWhiteSpace c)) s = true -> trimEnd s = s.
Proof.
  induction s as [|c r IH]; cbn; [reflexivity|].
  intros H. apply andb_true_iff in H as [Hc Hr].
  apply negb_true_iff in Hc. rewrite (IH Hr), Hc. now destruct r.
Qed.

Lemma trimEnd_before_clean (s b : string) :
  b <> "" -> allChars (fun c => negb (isWhiteSpace c)) b = true ->
  trimEnd (s ++ b) = s ++ b.
Proof.
  intros Hne Hb. induction s as [|c r IH]; cbn; [now apply trimEnd_clean|].
  rewrite IH. destruct (r ++ b) eqn:Hrb; [|reflexivity].
  destruct r; cbn in Hrb; [contradiction | discriminate].
Qed.

Lemma trim_clean (s : string) :
  allChars (fun c => negb (isWhiteSpace c)) s = true -> trim s = s.
Proof.
  intros H. unfold trim.
  replace (trimStart s) with s; [now apply trimEnd_clean|].
  destruct s as [|c r]; cbn in *; [reflexivity|].
  apply andb_true_iff in H as [Hc _]. apply negb_true_iff in Hc. now rewrite Hc.
Qed.

Lemma allChars_toLowerCase_clean (s : string) :
  allChars (fun c => negb (isWhiteSpace c)) (toLowerCase s)
  = allChars (fun c => negb (isWhiteSpace c)) s.
Proof.
  induction s as [|c r IH]; cbn; [reflexivity|].
  now rewrite whiteSpace_lower, IH.
Qed.

Lemma allChars_toLowerCase_whiteSpace (s : string) :
  allChars isWhiteSpace (toLowerCase s) = allChars isWhiteSpace s.
Proof.
  induction s as [|c r IH]; cbn; [reflexivity|].
  now rewrite whiteSpace_lower, IH.
Qed.

Lemma replaceRuns_clean (s : string) (b : bool) :
  allChars (fun c => negb (isWhiteSpace c)) s = true ->
  replaceRuns isWhiteSpace "_" b s = s.
Proof.
  revert b. induction s as [|c r IH]; intros b; cbn; [reflexivity|].
  intros H. apply andb_true_iff in H as [Hc Hr]. apply negb_true_iff in Hc.
  now rewrite Hc, IH.
Qed.

Lemma replaceRuns_clean_app (s rest : string) (b : bool) :
  s <> "" -> allChars (fun c => negb (isWhiteSpace c)) s = true ->
  replaceRuns isWhiteSpace "_" b (s ++ rest)
  = s ++ replaceRuns isWhiteSpace "_" false rest.
Proof.
  revert b. induction s as [|c r IH]; intros b Hne H; [contradiction|].
  cbn in *. apply andb_true_iff in H as [Hc Hr]. apply negb_true_iff in Hc.
  rewrite Hc. f_equal.
  destruct r as [|c' r']; [reflexivity|]. now apply IH.
Qed.

Lemma replaceRuns_skip (w rest : string) :
  allChars isWhiteSpace w = true ->
  replaceRuns isWhiteSpace "_" true (w ++ rest)
  = replaceRuns isWhiteSpace "_" true rest.
Proof.
  induction w as [|c r IH]; cbn; [reflexivity|].
  intros H. apply andb_true_iff in H as [Hc Hr]. now rewrite Hc, IH.
Qed.

Lemma replaceEach_app (a b : string) :
  replaceEach (fun c => negb (isSlugChar c)) "" (a ++ b)
  = replaceEach (fun c => negb (isSlugChar c)) "" a
    ++ replaceEach (fun c => negb (isSlugChar c)) "" b.
Proof.
  induction a as [|c r IH]; cbn; [reflexivity|].
  destruct (isSlugChar c); cbn; now rewrite IH.
Qed.

Lemma slugify_clean (s : string) :
  allChars (fun c => negb (isWhiteSpace c)) s = true ->
  slugify s = replaceEach (fun c => negb (isSlugChar c)) "" (toLowerCase s).
Proof.
  intros H. unfold slugify. rewrite (trim_clean s H), replaceRuns_clean; [reflexivity|].
  now rewrite allChars_toLowerCase_clean.
Qed.

(** X4.  Between two words a run of whitespace, however long, becomes one
    underscore: the slug of the whole is the slugs of the words joined by
    an underscore. *)
Theorem slugify_joins_words (a w b : string) :
  a <> "" -> b <> "" -> w <> "" ->
  allChars (fun c => negb (isWhiteSpace c)) a = true ->
  allChars (fun c => negb (isWhiteSpace c)) b = true ->
  allChars isWhiteSpace w = true ->
  slugify (a ++ w ++ b) = slugify a ++ "_" ++ slugify b.
Proof.
  intros Hae Hbe Hwe Ha Hb Hw.
  rewrite (slugify_clean a Ha), (slugify_clean b Hb). unfold slugify.
  assert (Htrim : trim (a ++ w ++ b) = a ++ w ++ b).
  { unfold trim. destruct a as [|c r]; [contradiction|].
    cbn in Ha. apply andb_true_iff in Ha as [Hc Hr].
    apply negb_true_iff in Hc. cbn [append trimStart]. rewrite Hc.
    change (String c (r ++ w ++ b)) with (String c r ++ w ++ b).
    rewrite <- string_app_assoc. now apply trimEnd_before_clean. }
  rewrite Htrim, !toLowerCase_app.
  rewrite replaceRuns_clean_app;
    [| now destruct a | now rewrite allChars_toLowerCase_clean].
  destruct w as [|c r]; [contradiction|].
  cbn in Hw. apply andb_true_iff in Hw as [Hc Hr].
  cbn [toLowerCase append replaceRuns]. rewrite whiteSpace_lower, Hc.
  rewrite replaceRuns_skip by now rewrite allChars_toLowerCase_whiteSpace.
  rewrite replaceRuns_clean by now rewrite allChars_toLowerCase_clean.
  rewrite replaceEach_app. reflexivity.
Qed.

Lemma slugify_joins_words_witness :
  slugify ("Stack" ++ "   " ++ "Overflow!") = slugify "Stack" ++ "_" ++ slugify "Overflow!".
Proof. apply slugify_joins_words; try discriminate; reflexivity. Defined.

(* ================================================================== *)
(** * More on the reconciliation *)

(** X5.  When reconciliation ends normally, the candidates it stores are, in
    the order of the result map and one for each, exactly the entries that
    are Claimed, have a URL and a key that is not known. *)
Theorem candidates_in_result_order (results : JSValue) (st st' : State) :
  truthy results = true -> truthy (person st) = true ->
  processSearchResults results st = Normal st' ->
  searchResults st'
  = map candidateOf
      (filter (qualifies (existingSocials (person st))) (Object_entries results))
  /\ map displayName (searchResults st')
     = map fst (filter (qualifies (existingSocials (person st)))
                       (Object_entries results)).
Proof.
  intros Hr Hp Hrun.
  destruct (processSearchResults_normal results st st' Hr Hp Hrun) as [_ ->].
  rewrite searchResults_report. split; [reflexivity|].
  rewrite map_map. reflexivity.
Qed.

Lemma candidates_in_result_order_witness :
  map displayName (searchResults (reconciled legacy_results legacy_state))
  = map fst (filter (qualifies (existingSocials (person legacy_state)))
                    (Object_entries legacy_results)).
Proof.
  apply (candidates_in_result_order legacy_results legacy_state); reflexivity.
Defined.

(** X6.  The set of known keys is not extended while the loop runs: two
    labels of one result map that have the same slug, not known so far, both
    become candidates, with the same key. *)
Theorem same_slug_twice_in_one_result
        (l1 l2 : string) (f1 f2 : JSValue) (st : State) :
  truthy (person st) = true ->
  slugify l1 = slugify l2 ->
  qualifies (existingSocials (person st)) (l1, f1) = true ->
  isClaimed f2 = true -> truthy (getProp f2 "url_user") = true ->
  hasUsername (l1, f1) = true -> hasUsername (l2, f2) = true ->
  exists st',
    processSearchResults (JObj [(l1, f1); (l2, f2)]) st = Normal st'
    /\ searchResults st' = [candidateOf (l1, f1); candidateOf (l2, f2)]
    /\ platform (candidateOf (l1, f1)) = platform (candidateOf (l2, f2)).
Proof.
  intros Hp Hslug Hq1 Hc2 Hu2 Hn1 Hn2.
  assert (Hq2 : qualifies (existingSocials (person st)) (l2, f2) = true).
  { unfold qualifies in *. cbn [fst snd] in *. unfold isClaimed in Hc2.
    rewrite Hc2, Hu2. rewrite <- Hslug.
    apply andb_true_iff in Hq1 as [_ ->]. reflexivity. }
  exists (report (JObj [(l1, f1); (l2, f2)])
                 [candidateOf (l1, f1); candidateOf (l2, f2)] st).
  split; [|split].
  - unfold processSearchResults. rewrite Hp. cbn [truthy negb orb Object_entries].
    rewrite forEntries_spec. unfold completes. cbn [forallb filter].
    rewrite Hq1, Hq2, Hn1, Hn2. reflexivity.
  - apply searchResults_report.
  - exact Hslug.
Qed.

Lemma same_slug_twice_in_one_result_witness :
  exists st',
    processSearchResults
      (JObj [("GitHub", claimedAs "https://github.com/jdoe" "jdoe");
             ("github", claimedAs "https://github.com/jdoe" "jdoe")])
      scenarioA_state = Normal st'
    /\ List.length (searchResults st') = 2.
Proof.
  destruct (same_slug_twice_in_one_result
              "GitHub" "github"
              (claimedAs "https://github.com/jdoe" "jdoe")
              (claimedAs "https://github.com/jdoe" "jdoe")
              scenarioA_state) as (st' & Hrun & Hres & _); try reflexivity.
  exists st'. split; [exact Hrun|]. now rewrite Hres.
Defined.

Lemma candidate_keys_are_canonical_aux
      (results : JSValue) (st st' : State) (c : FoundAccount) :
  truthy results = true -> truthy (person st) = true ->
  processSearchResults results st = Normal st' ->
  In c (searchResults st') ->
  allChars isSlugChar (platform c) = true.
Proof.
  intros Hr Hp Hrun Hc.
  destruct (candidate_fields results st st' c Hr Hp Hrun Hc)
    as (label & finding & _ & -> & _).
  apply slugify_only_slugChars.
Qed.

(** X7.  The key of every stored candidate is made of characters of
    [a-z0-9_-] only, and its handle is truthy. *)
Theorem candidate_keys_are_canonical
        (results : JSValue) (st st' : State) (c : FoundAccount) :
  truthy results = true -> truthy (person st) = true ->
  processSearchResults results st = Normal st' ->
  In c (searchResults st') ->
  allChars isSlugChar (platform c) = true /\ truthy (handle c) = true.
Proof.
  intros Hr Hp Hrun Hc.
  split; [apply (candidate_keys_are_canonical_aux results st st' c Hr Hp Hrun Hc)|].
  destruct (candidate_fields results st st' c Hr Hp Hrun Hc)
    as (label & finding & _ & _ & _ & _ & _ & Hh).
  exact Hh.
Qed.

Lemma candidate_keys_are_canonical_witness :
  allChars isSlugChar
    (platform (candidateOf ("Reddit", claimedAs "https://www.reddit.com/user/jdoe99" "jdoe99")))
  = true.
Proof.
  apply (candidate_keys_are_canonical legacy_results legacy_state
           (reconciled legacy_results legacy_state)); try reflexivity.
  vm_compute. left. reflexivity.
Defined.

(** *** What the search leaves alone *)

Lemma report_frame (results : JSValue) (found : list FoundAccount) (st : State) :
  person (report results found st) = person st
  /\ searchJobId (report results found st) = searchJobId st
  /\ searchingAccounts (report results found st) = searchingAccounts st
  /\ searchJobPolling (report results found st) = searchJobPolling st.
Proof.
  unfold report. destruct (Nat.eqb _ 0); [destruct (Z.ltb 0 _)|]; repeat split.
Qed.

Lemma processSearchResults_frame (results : JSValue) (st st' : State) :
  processSearchResults results st = Normal st' ->
  person st' = person st /\ searchJobId st' = searchJobId st
  /\ searchingAccounts st' = searchingAccounts st
  /\ searchJobPolling st' = searchJobPolling st.
Proof.
  unfold processSearchResults.
  destruct (negb (truthy results) || negb (truthy (person st))).
  - intros H. injection H as <-. repeat split.
  - destruct (forEntries _ _ _); cbn; [|discriminate].
    intros H. injection H as <-. apply report_frame.
Qed.

Lemma noteProgress_frame (jobStatus : JobStatus) (st : State) :
  person (noteProgress jobStatus st) = person st
  /\ searchError (noteProgress jobStatus st) = searchError st
  /\ searchResults (noteProgress jobStatus st) = searchResults st
  /\ searchingAccounts (noteProgress jobStatus st) = searchingAccounts st
  /\ searchJobPolling (noteProgress jobStatus st) = searchJobPolling st.
Proof. unfold noteProgress. destruct (String.eqb _ _); repeat split. Qed.

Lemma afterPolls_frame (backend : Backend) (n a : nat) (st : State) :
  person (afterPolls backend a n st) = person st
  /\ searchError (afterPolls backend a n st) = searchError st
  /\ searchResults (afterPolls backend a n st) = searchResults st
  /\ searchingAccounts (afterPolls backend a n st) = searchingAccounts st
  /\ searchJobPolling (afterPolls backend a n st) = searchJobPolling st.
Proof.
  revert a st. induction n as [|n IH]; intros a st; cbn; [repeat split|].
  destruct (backend a) as [jobStatus|err]; [|repeat split].
  destruct (IH (S a) (noteProgress jobStatus st)) as (H1 & H2 & H3 & H4 & H5).
  destruct (noteProgress_frame jobStatus st) as (G1 & G2 & G3 & G4 & G5).
  repeat split; congruence.
Qed.

Lemma lastPoll_frame (budget : nat) (resp : PollResponse) (a : nat) (st : State) :
  person (fst (lastPoll budget resp a st)) = person st
  /\ searchJobId (fst (lastPoll budget resp a st)) = searchJobId st.
Proof.
  unfold lastPoll. destruct resp as [jobStatus|err]; [|split; reflexivity].
  destruct (String.eqb (status jobStatus) "completed").
  { destruct (processSearchResults _ _) as [st'|err] eqn:Hrun; [|split; reflexivity].
    apply processSearchResults_frame in Hrun as (H1 & H2 & _). cbn.
    split; [exact H1 | exact H2]. }
  destruct (String.eqb (status jobStatus) "failed"); [split; reflexivity|].
  pose proof (noteProgress_frame jobStatus st) as (H1 & _).
  pose proof (searchJobId_noteProgress jobStatus st) as H2.
  destruct (budget <=? S a)%nat; cbn; split; assumption.
Qed.

(** X8.  The tracker only reads: whatever the backend answers, a run of
    [pollSearchResults] leaves the person and the job identifier as they
    were. *)
Theorem tracker_leaves_person_and_job
        (budget : nat) (backend : Backend) (st st' : State) (log : list Effect) :
  pollWithBudget budget backend st = Some (st', log) ->
  person st' = person st /\ searchJobId st' = searchJobId st.
Proof.
  intros Hrun.
  apply pollWithBudget_shape in Hrun
    as [[-> _]|(n & last & _ & _ & _ & -> & -> & _)]; [split; reflexivity|].
  destruct (lastPoll_frame budget (backend n) n
              (afterPolls backend 0 n (set_searchJobPolling true st))) as [-> ->].
  destruct (afterPolls_frame backend n 0 (set_searchJobPolling true st)) as (-> & _).
  rewrite searchJobId_afterPolls. split; reflexivity.
Qed.

Lemma tracker_leaves_person_and_job_witness :
  person (fst (tracked maxAttempts (runningThenCompleted 3 legacy_results) legacy_state))
  = person legacy_state
  /\ searchJobId (fst (tracked maxAttempts (runningThenCompleted 3 legacy_results)
                         legacy_state))
     = searchJobId legacy_state.
Proof.
  apply (tracker_leaves_person_and_job maxAttempts
           (runningThenCompleted 3 legacy_results) legacy_state _
           (snd (tracked maxAttempts (runningThenCompleted 3 legacy_results)
                   legacy_state))).
  vm_compute. reflexivity.
Defined.

(* ================================================================== *)
(** * More on the tracker *)

(** X9.  A status that is none of pending, running, completed and failed,
    seen before the budget is used up, stops the tracker without a word: no
    timer is set, no error is shown, and the search stays marked as running
    and polling. *)
Theorem unknown_status_stalls
        (budget : nat) (backend : Backend) (st : State) (jobId : string)
        (k : nat) (jobStatus : JobStatus) :
  searchJobId st = Some jobId -> jobId <> "" ->
  (forall j, j < k -> continues (backend j) = true) ->
  backend k = Resolved jobStatus ->
  continues (Resolved jobStatus) = false ->
  isTerminal (status jobStatus) = false ->
  S k < budget ->
  exists st',
    pollWithBudget budget backend st
    = Some (st', (pollLog (Some jobId) k ++ [GetStatus (Some jobId)])%list)
    /\ searchJobPolling st' = true
    /\ searchingAccounts st' = searchingAccounts st
    /\ searchError st' = searchError st
    /\ searchResults st' = searchResults st
    /\ searchJobStatus st' = Some ("Status: " ++ status jobStatus).
Proof.
  intros Hid Hne Hcont Hk Hnot Hterm Hlt.
  rewrite (pollWithBudget_after budget backend st jobId k Hid Hne Hcont);
    [|right; lia | left; now rewrite Hk].
  rewrite Hk. unfold lastPoll.
  unfold isTerminal in Hterm. apply orb_false_iff in Hterm as [-> ->].
  assert (Hle : (budget <=? S k)%nat = false) by (apply Nat.leb_gt; lia).
  rewrite Hle. cbn [fst snd].
  eexists. split; [reflexivity|].
  destruct (afterPolls_frame backend k 0 (set_searchJobPolling true st))
    as (_ & He & Hr & Ha & Hp).
  destruct (noteProgress_frame jobStatus
              (afterPolls backend 0 k (set_searchJobPolling true st)))
    as (_ & He' & Hr' & Ha' & Hp').
  rewrite He', Hr', Ha', Hp', He, Hr, Ha, Hp.
  repeat split.
  unfold noteProgress. cbn in Hnot. apply orb_false_iff in Hnot as [_ ->].
  reflexivity.
Qed.

Lemma unknown_status_stalls_witness :
  exists st',
    pollWithBudget maxAttempts (fun _ => answer "queued" JUndefined) legacy_state
    = Some (st', [GetStatus (Some "job-2")])
    /\ searchJobPolling st' = true
    /\ searchingAccounts st' = true.
Proof.
  destruct (unknown_status_stalls maxAttempts (fun _ => answer "queued" JUndefined)
              legacy_state "job-2" 0
              {| status := "queued"; results := JUndefined; error := JUndefined |})
    as (st' & Hrun & Hp & Ha & _); try reflexivity.
  - discriminate.
  - intros j Hj. lia.
  - unfold maxAttempts. lia.
  - exists st'. repeat split; assumption.
Defined.

(** X10.  However many polls it took, when the job is seen completed and
    reconciliation ends normally the tracker shows the candidates that
    [processSearchResults] computes from the job's results and the person's
    accounts; the search is marked as over and the recent jobs are
    reloaded. *)
Theorem completed_job_is_reconciled
        (budget : nat) (backend : Backend) (st : State) (jobId : string)
        (k : nat) (jobStatus : JobStatus) :
  searchJobId st = Some jobId -> jobId <> "" ->
  (forall j, j < k -> continues (backend j) = true) ->
  k = 0 \/ k < budget ->
  backend k = Resolved jobStatus ->
  status jobStatus = "completed" ->
  truthy (results jobStatus) = true -> truthy (person st) = true ->
  completes (existingSocials (person st)) (Object_entries (results jobStatus)) = true ->
  exists st',
    pollWithBudget budget backend st
    = Some (st', (pollLog (Some jobId) k
                    ++ [GetStatus (Some jobId); LoadRecentJobs])%list)
    /\ searchResults st'
       = map candidateOf
           (filter (qualifies (existingSocials (person st)))
                   (Object_entries (results jobStatus)))
    /\ searchingAccounts st' = false
    /\ searchJobPolling st' = false.
Proof.
  intros Hid Hne Hcont Hk Hresp Hdone Hres Hper Hall.
  rewrite (pollWithBudget_after budget backend st jobId k Hid Hne Hcont Hk);
    [|left; rewrite Hresp; cbn; now rewrite Hdone].
  rewrite Hresp. unfold lastPoll. rewrite Hdone. cbn [String.eqb Ascii.eqb Bool.eqb andb].
  destruct (afterPolls_frame backend k 0 (set_searchJobPolling true st))
    as (Hp & _).
  change (person (set_searchJobPolling true st)) with (person st) in Hp.
  unfold processSearchResults.
  cbn [person set_searchJobStatus]. rewrite Hp, Hres, Hper. cbn [negb orb].
  rewrite forEntries_spec, Hall. cbn [bind app fst snd].
  eexists. split; [reflexivity|].
  split; [apply searchResults_report|].
  split.
  - destruct (report_frame (results jobStatus)
                (map candidateOf
                   (filter (qualifies (existingSocials (person st)))
                           (Object_entries (results jobStatus))))
                (set_searchJobStatus "Status: completed"
                   (afterPolls backend 0 k (set_searchJobPolling true st))));
      reflexivity.
  - reflexivity.
Qed.

Lemma completed_job_is_reconciled_witness :
  exists st',
    pollWithBudget maxAttempts (runningThenCompleted 3 legacy_results) legacy_state
    = Some (st', (pollLog (Some "job-2") 3
                    ++ [GetStatus (Some "job-2"); LoadRecentJobs])%list)
    /\ List.length (searchResults st') = 1.
Proof.
  destruct (completed_job_is_reconciled maxAttempts
              (runningThenCompleted 3 legacy_results) legacy_state "job-2" 3
              {| status := "completed"; results := legacy_results;
                 error := JUndefined |})
    as (st' & Hrun & Hres & _); try reflexivity.
  - discriminate.
  - intros [|[|[|j]]] Hj; try reflexivity. lia.
  - right. unfold maxAttempts. lia.
  - exists st'. split; [exact Hrun|]. rewrite Hres. reflexivity.
Defined.

(** X11.  A job seen failed ends the tracking with the job's error text, or
    with "Search failed" when it has none; its results are not looked at, so
    the candidates on display stay as they were. *)
Theorem failed_job_is_reported
        (budget : nat) (backend : Backend) (st : State) (jobId : string)
        (k : nat) (jobStatus : JobStatus) :
  searchJobId st = Some jobId -> jobId <> "" ->
  (forall j, j < k -> continues (backend j) = true) ->
  k = 0 \/ k < budget ->
  backend k = Resolved jobStatus ->
  status jobStatus = "failed" ->
  exists st',
    pollWithBudget budget backend st
    = Some (st', (pollLog (Some jobId) k
                    ++ [GetStatus (Some jobId); LoadRecentJobs])%list)
    /\ searchError st' = or_else (error jobStatus) (JStr "Search failed")
    /\ searchResults st' = searchResults st
    /\ searchingAccounts st' = false
    /\ searchJobPolling st' = false.
Proof.
  intros Hid Hne Hcont Hk Hresp Hfailed.
  rewrite (pollWithBudget_after budget backend st jobId k Hid Hne Hcont Hk);
    [|left; rewrite Hresp; cbn; now rewrite Hfailed].
  rewrite Hresp. unfold lastPoll. rewrite Hfailed.
  cbn [String.eqb Ascii.eqb Bool.eqb andb fst snd].
  eexists. split; [reflexivity|].
  destruct (afterPolls_frame backend k 0 (set_searchJobPolling true st))
    as (_ & _ & Hr & _).
  cbn. rewrite Hr. repeat split.
Qed.

Lemma failed_job_is_reported_witness :
  exists st',
    pollWithBudget maxAttempts (failedAtOnce "") legacy_state
    = Some (st', [GetStatus (Some "job-2"); LoadRecentJobs])
    /\ searchError st' = JStr "Search failed".
Proof.
  destruct (failed_job_is_reported maxAttempts (failedAtOnce "") legacy_state "job-2" 0
              {| status := "failed"; results := JUndefined; error := JStr "" |})
    as (st' & Hrun & Herr & _); try reflexivity.
  - discriminate.
  - intros j Hj. lia.
  - now left.
  - exists st'. split; assumption.
Defined.

(* ================================================================== *)
(** * Resuming a job: checkJobResults *)

(** X12.  Resuming a job that is finished (completed with results, or
    failed) takes one call of the backend: no timer is set, no other call is
    made, and the flags that mark a running search are left as they were. *)
Theorem resume_finished_job_reads_once
        (backend : Backend) (jobId : string) (st : State) (jobStatus : JobStatus) :
  backend 0 = Resolved jobStatus ->
  (status jobStatus = "completed" /\ truthy (results jobStatus) = true)
  \/ status jobStatus = "failed" ->
  exists st',
    checkJobResults backend jobId st = Some (st', [GetStatus (Some jobId)])
    /\ searchingAccounts st' = searchingAccounts st
    /\ searchJobPolling st' = searchJobPolling st
    /\ person st' = person st.
Proof.
  intros Hresp Hfinished. unfold checkJobResults. rewrite Hresp.
  destruct Hfinished as [[Hdone Hres]|Hfailed].
  - rewrite Hdone, Hres. cbn [String.eqb Ascii.eqb Bool.eqb andb].
    destruct (processSearchResults _ _) as [st''|err] eqn:Hrun.
    + apply processSearchResults_frame in Hrun as (Hp & _ & Ha & Hpoll).
      eexists. split; [reflexivity|]. cbn. rewrite Hp, Ha, Hpoll. repeat split.
    + eexists. split; [reflexivity|]. repeat split.
  - rewrite Hfailed. cbn [String.eqb Ascii.eqb Bool.eqb andb].
    eexists. split; [reflexivity|]. repeat split.
Qed.

Lemma resume_finished_job_reads_once_witness :
  exists st',
    checkJobResults (completedAtOnce legacy_results) "job-7" legacy_state
    = Some (st', [GetStatus (Some "job-7")])
    /\ searchingAccounts st' = searchingAccounts legacy_state.
Proof.
  destruct (resume_finished_job_reads_once (completedAtOnce legacy_results) "job-7"
              legacy_state
              {| status := "completed"; results := legacy_results;
                 error := JUndefined |})
    as (st' & Hrun & Ha & _).
  - reflexivity.
  - left. split; reflexivity.
  - exists st'. split; assumption.
Defined.

(** X13.  Resuming a completed job whose results reconcile normally shows
    the candidates of [processSearchResults], whatever results and error an
    earlier search had left on display; the job becomes the current one. *)
Theorem resume_completed_job_shows_candidates
        (backend : Backend) (jobId : string) (st : State) (jobStatus : JobStatus) :
  backend 0 = Resolved jobStatus ->
  status jobStatus = "completed" ->
  truthy (results jobStatus) = true -> truthy (person st) = true ->
  completes (existingSocials (person st)) (Object_entries (results jobStatus)) = true ->
  exists st',
    checkJobResults backend jobId st = Some (st', [GetStatus (Some jobId)])
    /\ searchResults st'
       = map candidateOf
           (filter (qualifies (existingSocials (person st)))
                   (Object_entries (results jobStatus)))
    /\ (searchResults st' <> [] -> searchError st' = JNull)
    /\ searchJobId st' = Some jobId
    /\ searchJobStatus st' = Some "Loaded results from previous search".
Proof.
  intros Hresp Hdone Hres Hper Hall. unfold checkJobResults.
  rewrite Hresp, Hdone, Hres. cbn [String.eqb Ascii.eqb Bool.eqb andb].
  unfold processSearchResults. cbn [person set_searchResults set_searchError].
  rewrite Hres, Hper. cbn [negb orb]. rewrite forEntries_spec, Hall. cbn [bind app].
  eexists. split; [reflexivity|].
  cbn [searchResults searchJobId searchJobStatus searchError
       set_searchJobStatus set_searchJobId].
  rewrite searchResults_report.
  split; [reflexivity|]. split; [|split; reflexivity].
  intros Hne. unfold report.
  destruct (map candidateOf _) as [|c rest]; [contradiction|]. reflexivity.
Qed.

Lemma resume_completed_job_shows_candidates_witness :
  exists st',
    checkJobResults (completedAtOnce legacy_results) "job-7" mixed_state
    = Some (st', [GetStatus (Some "job-7")])
    /\ List.length (searchResults st') = 2
    /\ searchJobId st' = Some "job-7".
Proof.
  destruct (resume_completed_job_shows_candidates (completedAtOnce legacy_results)
              "job-7" mixed_state
              {| status := "completed"; results := legacy_results;
                 error := JUndefined |})
    as (st' & Hrun & Hres & _ & Hid & _); try reflexivity.
  exists st'. split; [exact Hrun|]. split; [now rewrite Hres | exact Hid].
Defined.

(** X14.  Resuming always comes to an end, after at least one and at most 61
    calls of the backend (its own and the 60 of the tracker), with timers of
    5000 ms only. *)
Theorem resume_is_bounded (backend : Backend) (jobId : string) (st : State) :
  exists st' log,
    checkJobResults backend jobId st = Some (st', log)
    /\ 1 <= pollsIssued log <= 61
    /\ Forall (fun ms => ms = 5000%Z) (delays log).
Proof.
  unfold checkJobResults.
  destruct (backend 0) as [jobStatus|err].
  2: { eexists. eexists. split; [reflexivity|]. cbn. split; [lia | constructor]. }
  destruct (String.eqb (status jobStatus) "completed" && truthy (results jobStatus)).
  { destruct (processSearchResults _ _); eexists; eexists;
      (split; [reflexivity|]); cbn; (split; [lia | constructor]). }
  destruct (String.eqb (status jobStatus) "failed").
  { eexists. eexists. split; [reflexivity|]. cbn. split; [lia | constructor]. }
  match goal with
  | |- context [pollSearchResults ?b ?s] =>
      destruct (pollSearchResults_total maxAttempts b s) as [[st' polled] Hrun]
  end.
  unfold pollSearchResults. rewrite Hrun.
  exists st', ([GetStatus (Some jobId)] ++ polled)%list.
  split; [reflexivity|].
  rewrite pollsIssued_app, delays_app. cbn [delays pollsIssued filter isGetStatus
                                            List.length app].
  apply pollWithBudget_counts in Hrun
    as [->|(n & Hpolls & Hdelays & _ & Hn & _)].
  - cbn. split; [lia | constructor].
  - change (List.length (filter isGetStatus polled)) with (pollsIssued polled).
    rewrite Hpolls, Hdelays. unfold maxAttempts in Hn.
    split; [lia|]. apply Forall_forall. intros ms Hms. now apply repeat_spec in Hms.
Qed.

(** X15.  A job that is completed without results is not taken as finished
    by [checkJobResults]: the tracker is started, reads the status a second
    time and stops there; the candidates and the error on display are left
    as they were. *)
Theorem resume_completed_without_results
        (backend : Backend) (jobId : string) (st : State)
        (first second : JobStatus) :
  jobId <> "" ->
  backend 0 = Resolved first -> backend 1 = Resolved second ->
  status first = "completed" -> truthy (results first) = false ->
  status second = "completed" -> truthy (results second) = false ->
  exists st',
    checkJobResults backend jobId st
    = Some (st', [GetStatus (Some jobId); GetStatus (Some jobId); LoadRecentJobs])
    /\ searchResults st' = searchResults st
    /\ searchError st' = searchError st
    /\ searchingAccounts st' = false
    /\ searchJobPolling st' = false
    /\ searchJobStatus st' = Some "Status: completed".
Proof.
  intros Hne H0 H1 Hs0 Hr0 Hs1 Hr1. unfold checkJobResults.
  rewrite H0, Hs0, Hr0. cbn [String.eqb Ascii.eqb Bool.eqb andb].
  unfold pollSearchResults.
  rewrite (pollWithBudget_after maxAttempts (laterCalls backend) _ jobId 0);
    [|reflexivity | exact Hne | intros j Hj; lia | now left
     | left; unfold laterCalls; rewrite H1; cbn; now rewrite Hs1].
  unfold laterCalls. rewrite H1. unfold lastPoll. rewrite Hs1.
  cbn [String.eqb Ascii.eqb Bool.eqb andb afterPolls].
  unfold processSearchResults. rewrite Hr1. cbn [negb orb fst snd pollLog app].
  eexists. split; [reflexivity|]. repeat split.
Qed.

Lemma resume_completed_without_results_witness :
  exists st',
    checkJobResults (completedAtOnce JNull) "job-7" legacy_state
    = Some (st', [GetStatus (Some "job-7"); GetStatus (Some "job-7"); LoadRecentJobs])
    /\ searchResults st' = searchResults legacy_state.
Proof.
  destruct (resume_completed_without_results (completedAtOnce JNull) "job-7"
              legacy_state
              {| status := "completed"; results := JNull; error := JUndefined |}
              {| status := "completed"; results := JNull; error := JUndefined |})
    as (st' & Hrun & Hres & _); try reflexivity.
  - discriminate.
  - exists st'. split; assumption.
Defined.

(* ================================================================== *)
(** * Adding accounts on the person page *)

Lemma trimEnd_idempotent (s : string) : trimEnd (trimEnd s) = trimEnd s.
Proof.
  induction s as [|c r IH]; cbn; [reflexivity|].
  destruct (trimEnd r) as [|c' r'] eqn:Hr.
  - destruct (isWhiteSpace c) eqn:Hc; cbn; [reflexivity | now rewrite Hc].
  - cbn [trimEnd]. cbn [trimEnd] in IH. rewrite IH. reflexivity.
Qed.

Lemma trimStart_startsClean (s : string) : startsClean (trimStart s) = true.
Proof.
  induction s as [|c r IH]; cbn; [reflexivity|].
  destruct (isWhiteSpace c) eqn:Hc; [exact IH | cbn; now rewrite Hc].
Qed.

Lemma trimEnd_startsClean (s : string) :
  startsClean s = true -> startsClean (trimEnd s) = true.
Proof.
  destruct s as [|c r]; cbn; [reflexivity|].
  intros Hc. destruct (trimEnd r); [|exact Hc].
  apply negb_true_iff in Hc. rewrite Hc. cbn. now rewrite Hc.
Qed.

Lemma trimStart_of_startsClean (s : string) :
  startsClean s = true -> trimStart s = s.
Proof.
  destruct s as [|c r]; cbn; [reflexivity|].
  intros Hc. apply negb_true_iff in Hc. now rewrite Hc.
Qed.

Lemma trim_idempotent (s : string) : trim (trim s) = trim s.
Proof.
  unfold trim.
  rewrite (trimStart_of_startsClean (trimEnd (trimStart s))).
  - apply trimEnd_idempotent.
  - apply trimEnd_startsClean, trimStart_startsClean.
Qed.

Lemma nonEmpty_true (s : string) : nonEmpty s = true <-> s <> "".
Proof.
  unfold nonEmpty. rewrite negb_true_iff. apply String.eqb_neq.
Qed.

Lemma nonEmpty_false (s : string) : nonEmpty s = false <-> s = "".
Proof.
  unfold nonEmpty. rewrite negb_false_iff. apply String.eqb_eq.
Qed.

(** X16.  Whatever [addSocial] sends to the backend is one account whose key
    is the slug of the chosen platform, not empty and made of characters of
    [a-z0-9_-] only, and whose handle is the typed handle without the
    whitespace around it, not empty either. *)
Theorem addSocial_sends_canonical_key
        (resp : ApiResult) (p p' : PersonPage.Page) (calls : list PersonPage.Call)
        (i : string) (payload : JSValue) :
  PersonPage.addSocial resp p = (p', calls) ->
  In (PersonPage.UpdatePerson i payload) calls ->
  exists key handle,
    payload = JObj [("socials", JObj [(key, JStr handle)])]
    /\ i = PersonPage.id p
    /\ key = slugify (PersonPage.chosenKey p)
    /\ key <> "" /\ allChars isSlugChar key = true
    /\ handle = trim (PersonPage.newHandle p)
    /\ handle <> "" /\ trim handle = handle.
Proof.
  unfold PersonPage.addSocial.
  destruct (nonEmpty (PersonPage.chosenKey p)) eqn:Hchosen.
  2: { rewrite Hchosen. cbn. intros H. injection H as <- <-. contradiction. }
  destruct (nonEmpty (slugify (PersonPage.chosenKey p))) eqn:Hkey; cbn [negb].
  2: { intros H. injection H as <- <-. contradiction. }
  destruct (nonEmpty (trim (PersonPage.newHandle p))) eqn:Hhandle; cbn [negb].
  2: { intros H. injection H as <- <-. contradiction. }
  intros Hrun Hin.
  exists (slugify (PersonPage.chosenKey p)), (trim (PersonPage.newHandle p)).
  assert (Hcall : PersonPage.UpdatePerson i payload
                  = PersonPage.UpdatePerson (PersonPage.id p)
                      (JObj [("socials",
                              JObj [(slugify (PersonPage.chosenKey p),
                                     JStr (trim (PersonPage.newHandle p)))])])).
  { destruct resp; cbn in Hrun; injection Hrun as <- <-;
      cbn in Hin; intuition congruence. }
  injection Hcall as -> ->.
  repeat split; try reflexivity.
  - now apply nonEmpty_true.
  - apply slugify_only_slugChars.
  - now apply nonEmpty_true.
  - apply trim_idempotent.
Qed.

(** X17.  [addSocial] asks nothing of the backend when the chosen platform
    has an empty slug (no platform, or a name without a letter, a digit, an
    underscore or a hyphen) or when the handle is blank; it then only sets
    the error, the missing platform being reported first. *)
Theorem addSocial_refuses_blank_input (resp : ApiResult) (p : PersonPage.Page) :
  (slugify (PersonPage.chosenKey p) = "" ->
   PersonPage.addSocial resp p
   = (PersonPage.set_error (Some "Please choose a platform") p, []))
  /\ (slugify (PersonPage.chosenKey p) <> "" ->
      trim (PersonPage.newHandle p) = "" ->
      PersonPage.addSocial resp p
      = (PersonPage.set_error (Some "Handle cannot be empty") p, [])).
Proof.
  unfold PersonPage.addSocial. split.
  - intros Hslug.
    destruct (nonEmpty (PersonPage.chosenKey p)) eqn:Hchosen.
    + rewrite Hslug. reflexivity.
    + rewrite Hchosen. reflexivity.
  - intros Hslug Hhandle.
    destruct (nonEmpty (PersonPage.chosenKey p)) eqn:Hchosen.
    + apply nonEmpty_true in Hslug. rewrite Hslug, Hhandle. reflexivity.
    + apply nonEmpty_false in Hchosen. rewrite Hchosen in Hslug.
      exfalso. apply Hslug. reflexivity.
Qed.

Lemma addSocial_sends_canonical_key_witness :
  exists key handle,
    JObj [("socials", JObj [("stack_overflow", JStr "jdoe")])]
    = JObj [("socials", JObj [(key, JStr handle)])]
    /\ key <> "" /\ handle <> "".
Proof.
  destruct (addSocial_sends_canonical_key ApiOk
              (typedPage " Stack Overflow " None "  jdoe ")
              (fst (PersonPage.addSocial ApiOk (typedPage " Stack Overflow " None "  jdoe ")))
              (snd (PersonPage.addSocial ApiOk (typedPage " Stack Overflow " None "  jdoe ")))
              "42" (JObj [("socials", JObj [("stack_overflow", JStr "jdoe")])]))
    as (key & handle & Hpayload & _ & _ & Hkey & _ & _ & Hhandle & _).
  - reflexivity.
  - vm_compute. left. reflexivity.
  - exists key, handle. repeat split; assumption.
Defined.

Lemma addSocial_refuses_blank_input_witness :
  PersonPage.addSocial ApiOk (typedPage "!!!" None "jdoe")
  = (PersonPage.set_error (Some "Please choose a platform")
       (typedPage "!!!" None "jdoe"), [])
  /\ PersonPage.addSocial ApiOk (typedPage "GitHub" None "   ")
     = (PersonPage.set_error (Some "Handle cannot be empty")
          (typedPage "GitHub" None "   "), []).
Proof.
  split.
  - apply (addSocial_refuses_blank_input ApiOk (typedPage "!!!" None "jdoe")).
    reflexivity.
  - apply (addSocial_refuses_blank_input ApiOk (typedPage "GitHub" None "   ")).
    + discriminate.
    + reflexivity.
Defined.

(** X18.  Adding a candidate that reconciliation has stored sends its key,
    which is canonical, with its handle; when the backend accepts, the
    candidates with that key, and only those, leave the display, and the
    person is reloaded.  When the backend refuses, the display is left as it
    was and the error is shown. *)
Theorem addFoundAccount_after_reconciliation
        (results : JSValue) (p : PersonPage.Page) (st' : State) (c : FoundAccount) :
  truthy results = true -> truthy (person (PersonPage.search p)) = true ->
  processSearchResults results (PersonPage.search p) = Normal st' ->
  In c (searchResults st') ->
  allChars isSlugChar (platform c) = true
  /\ (exists p',
        PersonPage.addFoundAccount ApiOk (platform c) (handle c)
          (PersonPage.set_search st' p)
        = (p', [PersonPage.UpdatePerson (PersonPage.id p)
                  (JObj [("socials", JObj [(platform c, handle c)])]);
                PersonPage.GetPerson (PersonPage.id p)])
        /\ (forall r, In r (searchResults (PersonPage.search p'))
                      <-> In r (searchResults st') /\ platform r <> platform c)
        /\ ~ In c (searchResults (PersonPage.search p')))
  /\ (forall err, exists p',
        PersonPage.addFoundAccount (ApiRejected err) (platform c) (handle c)
          (PersonPage.set_search st' p)
        = (p', [PersonPage.UpdatePerson (PersonPage.id p)
                  (JObj [("socials", JObj [(platform c, handle c)])])])
        /\ PersonPage.search p' = st'
        /\ PersonPage.error p' = Some (errorText err)).
Proof.
  intros Hr Hp Hrun Hc.
  split; [apply (candidate_keys_are_canonical_aux results _ st' c Hr Hp Hrun Hc)|].
  assert (Hfilter : forall r,
             In r (filter (isOtherPlatform (platform c)) (searchResults st'))
             <-> In r (searchResults st') /\ platform r <> platform c).
  { intros r. rewrite filter_In. unfold isOtherPlatform.
    rewrite negb_true_iff, String.eqb_neq. reflexivity. }
  split.
  - eexists. split; [reflexivity|]. cbn. split; [exact Hfilter|].
    intros Hin. apply Hfilter in Hin as [_ Hne]. now apply Hne.
  - intros err. eexists. split; [reflexivity|]. split; reflexivity.
Qed.

Lemma addFoundAccount_after_reconciliation_witness :
  exists p',
    PersonPage.addFoundAccount ApiOk "reddit" (JStr "jdoe99")
      (PersonPage.set_search (reconciled legacy_results mixed_state)
         (pageShowing mixed_state))
    = (p', [PersonPage.UpdatePerson "42"
              (JObj [("socials", JObj [("reddit", JStr "jdoe99")])]);
            PersonPage.GetPerson "42"])
    /\ List.length (searchResults (PersonPage.search p')) = 1.
Proof.
  destruct (addFoundAccount_after_reconciliation legacy_results
              (pageShowing mixed_state) (reconciled legacy_results mixed_state)
              (candidateOf ("Reddit", claimedAs "https://www.reddit.com/user/jdoe99" "jdoe99")))
    as (_ & (p' & Hrun & _ & _) & _).
  - reflexivity.
  - reflexivity.
  - reflexivity.
  - vm_compute. right. left. reflexivity.
  - exists p'. split; [exact Hrun|].
    cbn in Hrun. injection Hrun as <-. reflexivity.
Defined.

(* ================================================================== *)
(** * The page that adds a person *)

(** *** Own properties *)

Lemma hasOwn_false_iff {A : Type} (key : string) (o : list (string * A)) :
  OwnProps.hasOwn key o = false <-> ~ In key (map fst o).
Proof.
  induction o as [|[k w] rest IH]; cbn; [tauto|].
  rewrite orb_false_iff, IH, String.eqb_neq. intuition congruence.
Qed.

Lemma keys_replaceOwn {A : Type} (key : string) (v : A) (o : list (string * A)) :
  map fst (OwnProps.replaceOwn key v o) = map fst o.
Proof.
  induction o as [|[k w] rest IH]; cbn; [reflexivity|].
  destruct (String.eqb key k); cbn; [reflexivity | now rewrite IH].
Qed.

Lemma In_replaceOwn {A : Type} (key : string) (v : A) (o : list (string * A))
      (k' : string) (v' : A) :
  In (k', v') (OwnProps.replaceOwn key v o) ->
  (k', v') = (key, v) \/ In (k', v') o.
Proof.
  induction o as [|[k w] rest IH]; cbn; [tauto|].
  destruct (String.eqb key k) eqn:Hk; cbn.
  - apply String.eqb_eq in Hk. subst k. intuition.
  - intuition.
Qed.

Lemma In_insertIndex {A : Type} (key : string) (v : A) (o : list (string * A))
      (e : string * A) :
  In e (OwnProps.insertIndex key v o) <-> e = (key, v) \/ In e o.
Proof.
  induction o as [|[k w] rest IH]; cbn; [intuition|].
  destruct (OwnProps.isArrayIndex k && _); cbn; [rewrite IH|]; intuition.
Qed.

Lemma In_defineOwn {A : Type} (key : string) (v : A) (o : list (string * A))
      (k' : string) (v' : A) :
  In (k', v') (OwnProps.defineOwn key v o) ->
  (k', v') = (key, v) \/ In (k', v') o.
Proof.
  unfold OwnProps.defineOwn.
  destruct (OwnProps.hasOwn key o); [apply In_replaceOwn|].
  destruct (OwnProps.isArrayIndex key).
  - intros H. now apply In_insertIndex in H.
  - intros H. apply in_app_or in H as [H|[H|[]]]; [now right | now left].
Qed.

Lemma getOwn_replaceOwn {A : Type} (key : string) (v : A) (o : list (string * A))
      (k' : string) :
  OwnProps.hasOwn key o = true ->
  OwnProps.getOwn k' (OwnProps.replaceOwn key v o)
  = if String.eqb k' key then Some v else OwnProps.getOwn k' o.
Proof.
  induction o as [|[k w] rest IH]; cbn; [discriminate|].
  destruct (String.eqb key k) eqn:Hk; cbn.
  - intros _. apply String.eqb_eq in Hk. subst k.
    now destruct (String.eqb k' key).
  - intros Hrest. rewrite (IH Hrest).
    destruct (String.eqb k' k) eqn:Hk'; [|reflexivity].
    apply String.eqb_eq in Hk'. subst k'.
    rewrite String.eqb_sym, Hk. reflexivity.
Qed.

Lemma getOwn_insertIndex {A : Type} (key : string) (v : A) (o : list (string * A))
      (k' : string) :
  OwnProps.hasOwn key o = false ->
  OwnProps.getOwn k' (OwnProps.insertIndex key v o)
  = if String.eqb k' key then Some v else OwnProps.getOwn k' o.
Proof.
  induction o as [|[k w] rest IH]; cbn; [reflexivity|].
  intros H. apply orb_false_iff in H as [Hk Hrest].
  destruct (OwnProps.isArrayIndex k && _); cbn; [|reflexivity].
  rewrite (IH Hrest).
  destruct (String.eqb k' k) eqn:Hk'; [|reflexivity].
  apply String.eqb_eq in Hk'. subst k'.
  rewrite String.eqb_sym, Hk. reflexivity.
Qed.

Lemma getOwn_append {A : Type} (key : string) (v : A) (o : list (string * A))
      (k' : string) :
  OwnProps.hasOwn key o = false ->
  OwnProps.getOwn k' (o ++ [(key, v)])
  = if String.eqb k' key then Some v else OwnProps.getOwn k' o.
Proof.
  induction o as [|[k w] rest IH]; cbn; [reflexivity|].
  intros H. apply orb_false_iff in H as [Hk Hrest].
  rewrite (IH Hrest).
  destruct (String.eqb k' k) eqn:Hk'; [|reflexivity].
  apply String.eqb_eq in Hk'. subst k'.
  rewrite String.eqb_sym, Hk. reflexivity.
Qed.

(** Reading a property after an assignment. *)
Lemma getOwn_defineOwn {A : Type} (key : string) (v : A) (o : list (string * A))
      (k' : string) :
  OwnProps.getOwn k' (OwnProps.defineOwn key v o)
  = if String.eqb k' key then Some v else OwnProps.getOwn k' o.
Proof.
  unfold OwnProps.defineOwn.
  destruct (OwnProps.hasOwn key o) eqn:Hhas; [now apply getOwn_replaceOwn|].
  destruct (OwnProps.isArrayIndex key);
    [now apply getOwn_insertIndex | now apply getOwn_append].
Qed.

Lemma NoDup_insertIndex {A : Type} (key : string) (v : A) (o : list (string * A)) :
  ~ In key (map fst o) -> NoDup (map fst o) ->
  NoDup (map fst (OwnProps.insertIndex key v o)).
Proof.
  induction o as [|[k w] rest IH]; cbn; intros Hnot Hnd.
  - constructor; [tauto | constructor].
  - destruct (OwnProps.isArrayIndex k && _); cbn.
    + inversion Hnd as [|? ? Hk Hrest]; subst. constructor.
      * intros Hin. apply in_map_iff in Hin as [[k1 w1] [Heq Hin]].
        cbn in Heq. subst k1. apply In_insertIndex in Hin as [Hin|Hin].
        -- injection Hin as -> _. tauto.
        -- apply Hk. apply in_map_iff. now exists (k, w1).
      * apply IH; tauto.
    + constructor; [exact Hnot | exact Hnd].
Qed.

(** The keys of an object stay distinct. *)
Lemma NoDup_defineOwn {A : Type} (key : string) (v : A) (o : list (string * A)) :
  NoDup (map fst o) -> NoDup (map fst (OwnProps.defineOwn key v o)).
Proof.
  intros Hnd. unfold OwnProps.defineOwn.
  destruct (OwnProps.hasOwn key o) eqn:Hhas; [now rewrite keys_replaceOwn|].
  apply hasOwn_false_iff in Hhas.
  destruct (OwnProps.isArrayIndex key); [now apply NoDup_insertIndex|].
  rewrite map_app. cbn. apply NoDup_app; [exact Hnd | | ].
  - constructor; [tauto | constructor].
  - intros x Hx [<-|[]]. contradiction.
Qed.

(** *** The accounts of the new person *)

Lemma rowKey_canonical (row : AddPage.SocialRow) :
  AddPage.rowKey row <> "" -> allChars isSlugChar (AddPage.rowKey row) = true.
Proof.
  unfold AddPage.rowKey.
  destruct (nonEmpty _) eqn:Hne; [intros _; apply slugify_only_slugChars|].
  apply nonEmpty_false in Hne. intros H. contradiction.
Qed.

Lemma In_addRow (acc : list (string * string)) (row : AddPage.SocialRow)
      (k v : string) :
  In (k, v) (AddPage.addRow acc row) ->
  In (k, v) acc
  \/ (AddPage.writes k row = true /\ k <> "__proto__"
      /\ v = trim (AddPage.handle row)).
Proof.
  unfold AddPage.addRow, AddPage.writes, OwnProps.assignString.
  destruct (nonEmpty (AddPage.rowKey row)) eqn:Hkey; [|now left].
  destruct (nonEmpty (AddPage.handle row)) eqn:Hhandle; [|now left].
  cbn [andb]. destruct (String.eqb (AddPage.rowKey row) "__proto__") eqn:Hproto;
    [now left|].
  intros Hin. apply In_defineOwn in Hin as [Heq|Hin]; [|now left].
  injection Heq as -> ->. right. rewrite String.eqb_refl.
  apply String.eqb_neq in Hproto. repeat split; try reflexivity; exact Hproto.
Qed.

Lemma In_fold_addRow (rows : list AddPage.SocialRow) :
  forall (acc : list (string * string)) (k v : string),
    In (k, v) (fold_left AddPage.addRow rows acc) ->
    In (k, v) acc
    \/ exists row, In row rows /\ AddPage.writes k row = true
                   /\ k <> "__proto__" /\ v = trim (AddPage.handle row).
Proof.
  induction rows as [|row rows IH]; intros acc k v; cbn; [now left|].
  intros Hin. apply IH in Hin as [Hin|(r & Hr & Hw)].
  - apply In_addRow in Hin as [Hin|Hw]; [now left|].
    right. exists row. split; [now left | exact Hw].
  - right. exists r. split; [now right | exact Hw].
Qed.

Lemma NoDup_fold_addRow (rows : list AddPage.SocialRow) :
  forall acc : list (string * string),
    NoDup (map fst acc) -> NoDup (map fst (fold_left AddPage.addRow rows acc)).
Proof.
  induction rows as [|row rows IH]; intros acc Hnd; cbn; [exact Hnd|].
  apply IH. unfold AddPage.addRow, OwnProps.assignString.
  destruct (nonEmpty _ && nonEmpty _); [|exact Hnd].
  destruct (String.eqb _ "__proto__"); [exact Hnd | now apply NoDup_defineOwn].
Qed.

(** X19.  Every account that [submit] puts into the payload has a key that is
    not empty and made of characters of [a-z0-9_-] only, and the key comes
    with the handle of a row of that key, without the whitespace around it;
    no two accounts of the payload have the same key. *)
Theorem submitted_accounts_are_canonical
        (rows : list AddPage.SocialRow) (o : list (string * string)) :
  AddPage.socialsObj rows = Some o ->
  NoDup (map fst o)
  /\ forall k v,
       In (k, v) o ->
       k <> "" /\ k <> "__proto__" /\ allChars isSlugChar k = true
       /\ exists row,
            In row rows /\ AddPage.rowKey row = k
            /\ AddPage.handle row <> "" /\ v = trim (AddPage.handle row).
Proof.
  unfold AddPage.socialsObj. destruct rows as [|row0 rows0]; [discriminate|].
  intros H. injection H as <-. split.
  - apply (NoDup_fold_addRow (row0 :: rows0) []). constructor.
  - intros k v Hin.
    apply (In_fold_addRow (row0 :: rows0) []) in Hin as [[]|(row & Hrow & Hw & Hproto & Hv)].
    unfold AddPage.writes in Hw.
    apply andb_true_iff in Hw as [Hw Hhandle].
    apply andb_true_iff in Hw as [Heq Hkey].
    apply String.eqb_eq in Heq. apply nonEmpty_true in Hkey, Hhandle.
    rewrite Heq in Hkey.
    repeat split; try assumption.
    + rewrite <- Heq. apply rowKey_canonical. now rewrite Heq.
    + exists row. repeat split; assumption.
Qed.

Lemma submitted_accounts_are_canonical_witness :
  NoDup (map fst [("github", "jane"); ("reddit", "jdoe99")]).
Proof.
  apply (submitted_accounts_are_canonical sampleRows). reflexivity.
Defined.

Lemma find_app {A : Type} (f : A -> bool) (l1 l2 : list A) :
  find f (l1 ++ l2)
  = match find f l1 with
    | Some x => Some x
    | None => find f l2
    end.
Proof.
  induction l1 as [|x l1 IH]; cbn; [reflexivity|].
  now destruct (f x).
Qed.

Lemma getOwn_addRow (acc : list (string * string)) (row : AddPage.SocialRow)
      (k : string) :
  k <> "__proto__" ->
  OwnProps.getOwn k (AddPage.addRow acc row)
  = if AddPage.writes k row then Some (trim (AddPage.handle row))
    else OwnProps.getOwn k acc.
Proof.
  intros Hk. unfold AddPage.addRow, AddPage.writes, OwnProps.assignString.
  destruct (String.eqb (AddPage.rowKey row) k) eqn:Hrow,
    (nonEmpty (AddPage.rowKey row)), (nonEmpty (AddPage.handle row));
    cbn [andb]; try reflexivity.
  - destruct (String.eqb (AddPage.rowKey row) "__proto__") eqn:Hproto.
    + apply String.eqb_eq in Hrow, Hproto. congruence.
    + now rewrite getOwn_defineOwn, String.eqb_sym, Hrow.
  - destruct (String.eqb (AddPage.rowKey row) "__proto__"); [reflexivity|].
    now rewrite getOwn_defineOwn, String.eqb_sym, Hrow.
Qed.

Lemma getOwn_fold_addRow (rows : list AddPage.SocialRow) :
  forall (acc : list (string * string)) (k : string),
    k <> "__proto__" ->
    OwnProps.getOwn k (fold_left AddPage.addRow rows acc)
    = match find (AddPage.writes k) (rev rows) with
      | Some row => Some (trim (AddPage.handle row))
      | None => OwnProps.getOwn k acc
      end.
Proof.
  induction rows as [|row rows IH]; intros acc k Hk; cbn; [reflexivity|].
  rewrite (IH _ k Hk), find_app.
  destruct (find (AddPage.writes k) (rev rows)); [reflexivity|].
  cbn. rewrite (getOwn_addRow acc row k Hk).
  now destruct (AddPage.writes k row).
Qed.

Lemma submitted_accounts_last_row_wins_aux
      (rows : list AddPage.SocialRow) (o : list (string * string)) (k : string) :
  AddPage.socialsObj rows = Some o ->
  k <> "__proto__" ->
  OwnProps.getOwn k o
  = match find (AddPage.writes k) (rev rows) with
    | Some row => Some (trim (AddPage.handle row))
    | None => None
    end.
Proof.
  unfold AddPage.socialsObj. destruct rows as [|row0 rows0]; [discriminate|].
  intros H Hk. injection H as <-.
  exact (getOwn_fold_addRow (row0 :: rows0) [] k Hk).
Qed.

(** X20.  When several rows name one platform, the last of them decides: the
    handle that the payload has for a key is the trimmed handle of the last
    row with that key and a handle, and a key that no such row has is not in
    the payload. *)
Theorem submitted_accounts_last_row_wins
        (rows : list AddPage.SocialRow) (o : list (string * string)) (k : string) :
  AddPage.socialsObj rows = Some o ->
  k <> "__proto__" ->
  OwnProps.getOwn k o
  = match find (AddPage.writes k) (rev rows) with
    | Some row => Some (trim (AddPage.handle row))
    | None => None
    end.
Proof.
  exact (submitted_accounts_last_row_wins_aux rows o k).
Qed.

Lemma submitted_accounts_last_row_wins_witness :
  OwnProps.getOwn "github" [("github", "jane"); ("reddit", "jdoe99")] = Some "jane".
Proof.
  rewrite (submitted_accounts_last_row_wins sampleRows _ "github");
    [reflexivity | reflexivity | discriminate].
Defined.

(** *** The lists typed with commas *)

Lemma splitOn_nonempty (sep : ascii) (s : string) : AddPage.splitOn sep s <> [].
Proof.
  destruct s as [|c r]; cbn; [discriminate|].
  destruct (Ascii.eqb c sep); [discriminate|].
  destruct (AddPage.splitOn sep r); discriminate.
Qed.

Lemma splitOn_no_separator (sep : ascii) (s : string) :
  Forall (fun w => allChars (fun c => negb (Ascii.eqb c sep)) w = true)
         (AddPage.splitOn sep s).
Proof.
  induction s as [|c r IH]; cbn; [repeat constructor|].
  destruct (Ascii.eqb c sep) eqn:Hc; [constructor; [reflexivity | exact IH]|].
  destruct (AddPage.splitOn sep r) as [|w ws]; [repeat constructor; cbn; now rewrite Hc|].
  inversion IH as [|? ? Hw Hws]; subst.
  constructor; [cbn; now rewrite Hc, Hw | exact Hws].
Qed.

Lemma allChars_trimStart (p : ascii -> bool) (s : string) :
  allChars p s = true -> allChars p (trimStart s) = true.
Proof.
  induction s as [|c r IH]; cbn; [reflexivity|].
  intros H. destruct (isWhiteSpace c); [|exact H].
  apply andb_true_iff in H as [_ Hr]. now apply IH.
Qed.

Lemma allChars_trimEnd (p : ascii -> bool) (s : string) :
  allChars p s = true -> allChars p (trimEnd s) = true.
Proof.
  induction s as [|c r IH]; cbn; [reflexivity|].
  intros H. apply andb_true_iff in H as [Hc Hr]. specialize (IH Hr).
  destruct (trimEnd r).
  - destruct (isWhiteSpace c); cbn; [reflexivity | now rewrite Hc].
  - cbn [allChars] in *. now rewrite Hc, IH.
Qed.

(** X21.  Every item that [submit] sends for a field typed with commas
    (other phone numbers, other emails, aliases) is not empty, has no
    whitespace around it and no comma in it. *)
Theorem comma_items_are_clean (s x : string) :
  In x (AddPage.commaItems s) ->
  x <> "" /\ trim x = x
  /\ allChars (fun c => negb (Ascii.eqb c ",")) x = true.
Proof.
  unfold AddPage.commaItems. intros Hin.
  apply filter_In in Hin as [Hin Hne].
  apply in_map_iff in Hin as [w [<- Hw]].
  split; [now apply nonEmpty_true|]. split; [apply trim_idempotent|].
  unfold trim. apply allChars_trimEnd, allChars_trimStart.
  pose proof (splitOn_no_separator "," s) as Hall.
  rewrite Forall_forall in Hall. now apply Hall.
Qed.

Lemma comma_items_are_clean_witness :
  "jd@example.org" <> "" /\ trim "jd@example.org" = "jd@example.org"
  /\ allChars (fun c => negb (Ascii.eqb c ",")) "jd@example.org" = true.
Proof.
  apply (comma_items_are_clean " jane@example.org, ,jd@example.org ,").
  vm_compute. right. left. reflexivity.
Defined.

Lemma splitOn_app (sep : ascii) (a b : string) :
  AddPage.splitOn sep (a ++ String sep b)
  = (AddPage.splitOn sep a ++ AddPage.splitOn sep b)%list.
Proof.
  induction a as [|c r IH]; cbn; [now rewrite Ascii.eqb_refl|].
  destruct (Ascii.eqb c sep); [now rewrite IH|].
  rewrite IH. pose proof (splitOn_nonempty sep r) as Hne.
  destruct (AddPage.splitOn sep r) as [|w ws]; [contradiction | reflexivity].
Qed.

(** X22.  A comma separates: the items of two texts joined by a comma are
    the items of the first followed by the items of the second. *)
Theorem comma_items_of_joined_texts (a b : string) :
  AddPage.commaItems (a ++ "," ++ b)
  = (AddPage.commaItems a ++ AddPage.commaItems b)%list.
Proof.
  unfold AddPage.commaItems. cbn [append].
  now rewrite splitOn_app, map_app, filter_app.
Qed.

(** X23.  [submit] does not refuse a handle made of whitespace only: when the
    last row of a platform has such a handle, the payload has that platform
    with the empty handle. *)
Theorem blank_handle_is_submitted_empty
        (rows : list AddPage.SocialRow) (row : AddPage.SocialRow)
        (o : list (string * string)) :
  AddPage.socialsObj (rows ++ [row]) = Some o ->
  AddPage.rowKey row <> "" -> AddPage.rowKey row <> "__proto__" ->
  AddPage.handle row <> "" ->
  allChars isWhiteSpace (AddPage.handle row) = true ->
  OwnProps.getOwn (AddPage.rowKey row) o = Some "".
Proof.
  intros Hobj Hkey Hproto Hhandle Hblank.
  rewrite (submitted_accounts_last_row_wins_aux (rows ++ [row]) o _ Hobj Hproto).
  rewrite rev_app_distr. cbn [rev app find].
  unfold AddPage.writes at 1. rewrite String.eqb_refl.
  apply nonEmpty_true in Hkey, Hhandle. rewrite Hkey, Hhandle. cbn [andb].
  unfold trim. now rewrite (trimStart_all_whiteSpace _ Hblank).
Qed.

Lemma blank_handle_is_submitted_empty_witness :
  OwnProps.getOwn "github" [("github", "")] = Some "".
Proof.
  apply (blank_handle_is_submitted_empty []
           {| AddPage.display := "GitHub"; AddPage.slug := None;
              AddPage.handle := "   " |}); try reflexivity; discriminate.
Defined.
